(** * betrace: legacy trace-condition DSL converter and parser diagnostics

    A shallow embedding of [backend/scripts/convert-yaml-dsl.py]
    ([convert_condition], [convert_yaml_file]) and of the parser error sites
    rewritten by [backend/refactor-parser.py].

    Strings are [string]s of 8-bit characters, read as the code points
    0..255 of a Python [str]; on that range the character predicates below
    coincide with the ones CPython uses for [str.strip()], [\s] and [\d]. *)

From Stdlib Require Import ZArith Lia Ascii String.
From stdpp Require Import base option list strings gmap.

Local Open Scope string_scope.

(* ===================================================================== *)
(** ** Characters and Python string helpers *)
(* ===================================================================== *)

Module Py.

(** [Py_UNICODE_ISSPACE] restricted to code points below 256: TAB..CR,
    FS..US, SPACE, NEL and NBSP.  It backs both [str.strip()] and the
    regex escape [\s] on [str] patterns. *)
Definition is_space (c : ascii) : bool :=
  let n := nat_of_ascii c in
  (((9 <=? n) && (n <=? 13)) || ((28 <=? n) && (n <=? 32))
   || (n =? 133) || (n =? 160))%nat.

(** Decimal digits below code point 256 (category Nd): '0'..'9'. *)
Definition is_digit (c : ascii) : bool :=
  let n := nat_of_ascii c in ((48 <=? n) && (n <=? 57))%nat.

Fixpoint lstrip (s : string) : string :=
  match s with
  | String c s' => if is_space c then lstrip s' else s
  | EmptyString => EmptyString
  end.

Fixpoint rstrip (s : string) : string :=
  match s with
  | String c s' =>
      match rstrip s' with
      | EmptyString => if is_space c then EmptyString else String c EmptyString
      | r => String c r
      end
  | EmptyString => EmptyString
  end.

(** [str.strip()] without argument. *)
Definition strip (s : string) : string := rstrip (lstrip s).

(** [s.startswith(p)], returning the remainder on success. *)
Fixpoint lit (p s : string) : option string :=
  match p with
  | EmptyString => Some s
  | String c p' =>
      match s with
      | String d s' => if Ascii.eqb c d then lit p' s' else None
      | EmptyString => None
      end
  end.

Definition startswith (p s : string) : bool :=
  match lit p s with Some _ => true | None => false end.

(** [sub in s] on strings. *)
Fixpoint contains (sub s : string) : bool :=
  startswith sub s ||
  match s with
  | String _ s' => contains sub s'
  | EmptyString => false
  end.

(** [s[a:b]] for [0 <= a <= b]. *)
Definition slice (s : string) (a b : nat) : string := substring a (b - a)%nat s.

(** The newline character of the f-strings. *)
Definition nl : string := String (ascii_of_nat 10%nat) EmptyString.

(** Exceptions the modelled code can raise. *)
Inductive exn : Type :=
  | IndexError | KeyError | AttributeError | TypeError.

Inductive result (A : Type) : Type :=
  | Ok (a : A)
  | Raise (e : exn).
Arguments Ok {A} a.
Arguments Raise {A} e.

Definition bind {A B} (x : result A) (f : A -> result B) : result B :=
  match x with Ok a => f a | Raise e => Raise e end.

End Py.

Notation "'let*' x ':=' c1 'in' c2" := (Py.bind c1 (fun x => c2))
  (at level 10, x name, c1 at level 100, c2 at level 200).

(* ===================================================================== *)
(** ** The fragment of Python's [re] used by the recognizers *)
(* ===================================================================== *)

Module Re.
Import Py.

(** Character classes occurring in the patterns. *)
Inductive cclass : Type :=
  | CNot (cs : string)     (* [^...] *)
  | CSet (cs : string)     (* [...]  *)
  | CSpace                 (* \s     *)
  | CDigit.                (* \d     *)

Fixpoint mem (c : ascii) (cs : string) : bool :=
  match cs with
  | String d cs' => Ascii.eqb d c || mem c cs'
  | EmptyString => false
  end.

Definition in_class (cl : cclass) (c : ascii) : bool :=
  match cl with
  | CNot cs => negb (mem c cs)
  | CSet cs => mem c cs
  | CSpace => is_space c
  | CDigit => is_digit c
  end.

(** Regular expressions: literal text, greedy [+] and [*] over a class,
    greedy [?], numbered capture groups, concatenation and negative
    lookahead. *)
Inductive regex : Type :=
  | Str (l : string)
  | Plus (cl : cclass)
  | Star (cl : cclass)
  | Opt (r : regex)
  | Group (n : nat) (r : regex)
  | Seq (r1 r2 : regex)
  | NotAhead (r : regex).

(** Group spans, indexed by group number; index 0 is the whole match. *)
Abbreviation marks := (list (option (nat * nat))).

(** Continuations of the backtracking matcher: position, remaining text
    and marks in, end position and final marks out. *)
Definition cont : Type := nat -> string -> marks -> option (nat * marks).

(** Greedy repetition of a class: longest run first, giving back one
    character at a time while the continuation fails. *)
Fixpoint star (cl : cclass) (k : nat -> string -> option (nat * marks))
    (pos : nat) (s : string) : option (nat * marks) :=
  match s with
  | String c s' =>
      if in_class cl c then
        match star cl k (S pos) s' with
        | Some r => Some r
        | None => k pos s
        end
      else k pos s
  | EmptyString => k pos s
  end.

Fixpoint m (r : regex) (k : cont) (pos : nat) (s : string) (mk : marks)
    : option (nat * marks) :=
  match r with
  | Str l =>
      match lit l s with
      | Some s' => k (pos + String.length l)%nat s' mk
      | None => None
      end
  | Plus cl =>
      match s with
      | String c s' =>
          if in_class cl c then star cl (fun p t => k p t mk) (S pos) s'
          else None
      | EmptyString => None
      end
  | Star cl => star cl (fun p t => k p t mk) pos s
  | Opt r' =>
      match m r' k pos s mk with
      | Some x => Some x
      | None => k pos s mk
      end
  | Group n r' => m r' (fun p t c => k p t (<[n := Some (pos, p)]> c)) pos s mk
  | Seq r1 r2 => m r1 (m r2 k) pos s mk
  | NotAhead r' =>
      match m r' (fun p _ c => Some (p, c)) pos s mk with
      | Some _ => None
      | None => k pos s mk
      end
  end.

(** Number of capture groups of a pattern ([re.Pattern.groups]). *)
Fixpoint ngroups (r : regex) : nat :=
  match r with
  | Str _ | Plus _ | Star _ => 0%nat
  | Opt r' | NotAhead r' => ngroups r'
  | Group n r' => Nat.max n (ngroups r')
  | Seq r1 r2 => Nat.max (ngroups r1) (ngroups r2)
  end.

(** A match object: the subject string and the spans of the groups. *)
Record Match : Type := mkMatch {
  m_string : string;
  m_groups : nat;
  m_marks : marks
}.

Definition accept : cont := fun p _ c => Some (p, <[0%nat := Some (0%nat, p)]> c).

(** [re.match(pattern, s)]: anchored at the start, any remainder allowed. *)
Definition re_match (p : regex) (s : string) : option Match :=
  match m p accept 0%nat s (replicate (S (ngroups p)) None) with
  | Some (_, mk) => Some (mkMatch s (ngroups p) mk)
  | None => None
  end.

(** [match.group(n)]: [IndexError] for a group the pattern does not have,
    [None] for a group that did not take part in the match. *)
Definition group (mt : Match) (n : nat) : result (option string) :=
  if (m_groups mt <? n)%nat then Raise IndexError
  else match m_marks mt !! n with
       | Some (Some (a, b)) => Ok (Some (slice (m_string mt) a b))
       | _ => Ok None
       end.

(** End offset of the whole match ([match.end()]). *)
Definition m_end (mt : Match) : nat :=
  match m_marks mt !! 0%nat with
  | Some (Some (_, b)) => b
  | _ => 0%nat
  end.

End Re.

Infix "⋅" := Re.Seq (at level 60, right associativity).

(* ===================================================================== *)
(** ** [convert_condition]: the recognizer cascade *)
(* ===================================================================== *)

Module Conv.
Import Py Re.

(** [trace\.has\(([^)]+)\)] with the span name in group [n]. *)
Definition has (n : nat) : regex :=
  Str "trace.has(" ⋅ Group n (Plus (CNot ")")) ⋅ Str ")".

(** [(\.where\([^)]+\))] as group [n]. *)
Definition where_ (n : nat) : regex :=
  Group n (Str ".where(" ⋅ Plus (CNot ")") ⋅ Str ")").

(** [\s+and\s+] *)
Definition and_ : regex := Plus CSpace ⋅ Str "and" ⋅ Plus CSpace.

(** [trace\.count\(([^)]+)\)] with the span name in group [n]. *)
Definition count (n : nat) : regex :=
  Str "trace.count(" ⋅ Group n (Plus (CNot ")")) ⋅ Str ")".

(** Pattern 1: [trace.has(A).where(...) and not trace.has(B)] *)
Definition pattern1 : regex :=
  has 1 ⋅ Opt (where_ 2) ⋅ and_ ⋅ Str "not" ⋅ Plus CSpace ⋅ has 3.

(** Pattern 2: [trace.has(A) and trace.has(B) and trace.has(C).where(...)] *)
Definition pattern2 : regex :=
  has 1 ⋅ and_ ⋅ has 2 ⋅ and_ ⋅ has 3 ⋅ where_ 4.

(** Pattern 3: [trace.has(A).where(...) and trace.has(B).where(...)] *)
Definition pattern3 : regex :=
  has 1 ⋅ where_ 2 ⋅ and_ ⋅ has 3 ⋅ where_ 4.

(** Pattern 4a: [trace.has(A).where(...) and trace.has(B)], not followed
    by [.where]. *)
Definition pattern4a : regex :=
  has 1 ⋅ where_ 2 ⋅ and_ ⋅ has 3 ⋅ NotAhead (Str ".where").

(** Pattern 4b: [trace.has(A) and trace.has(B).where(...)] *)
Definition pattern4b : regex :=
  has 1 ⋅ and_ ⋅ has 2 ⋅ where_ 3.

(** Pattern 5: [trace.has(A) and trace.has(B)] *)
Definition pattern5 : regex :=
  has 1 ⋅ and_ ⋅ has 2.

(** Pattern 6: [trace.count(X) != trace.count(Y)] *)
Definition pattern6 : regex :=
  count 1 ⋅ Star CSpace ⋅ Group 2 (Plus (CSet "!<>=")) ⋅ Star CSpace ⋅ count 3.

(** Pattern 7: [trace.count(X) > N] *)
Definition pattern7 : regex :=
  count 1 ⋅ Star CSpace ⋅ Group 2 (Plus (CSet "><=!")) ⋅ Star CSpace
  ⋅ Group 3 (Plus CDigit).

(** Pattern 8: [trace.has(X).where(...)] *)
Definition pattern8 : regex := has 1 ⋅ where_ 2.

(** Pattern 9: [trace.has(X)] *)
Definition pattern9 : regex := has 1.

(** A group value interpolated into an f-string. *)
Definition fmt (g : option string) : string :=
  match g with Some s => s | None => "None" end.

(** [g or ""] *)
Definition or_empty (g : option string) : string :=
  match g with Some s => s | None => "" end.

Definition manual_review (condition : string) : string :=
  "# TODO: Manual conversion required" +:+ nl +:+ "# Original: " +:+ condition.

(** The [return f"..."] of each branch, from the match object. *)
Definition emit1 (mt : Match) : result string :=
  let* span_a := group mt 1 in
  let* where_clause := group mt 2 in
  let* span_b := group mt 3 in
  Ok ("when { " +:+ fmt span_a +:+ or_empty where_clause
      +:+ " } never { " +:+ fmt span_b +:+ " }").

Definition emit2 (mt : Match) : result string :=
  let* span_a := group mt 1 in
  let* span_b := group mt 2 in
  let* span_c := group mt 3 in
  let* where_clause := group mt 4 in
  Ok ("when { " +:+ fmt span_a +:+ " and " +:+ fmt span_b
      +:+ " } always { " +:+ fmt span_c +:+ fmt where_clause +:+ " }").

Definition emit3 (mt : Match) : result string :=
  let* span_a := group mt 1 in
  let* where_a := group mt 2 in
  let* span_b := group mt 3 in
  let* where_b := group mt 4 in
  Ok ("when { " +:+ fmt span_a +:+ fmt where_a
      +:+ " } always { " +:+ fmt span_b +:+ fmt where_b +:+ " }").

Definition emit4a (mt : Match) : result string :=
  let* span_a := group mt 1 in
  let* where_clause := group mt 2 in
  let* span_b := group mt 3 in
  Ok ("when { " +:+ fmt span_a +:+ fmt where_clause
      +:+ " } always { " +:+ fmt span_b +:+ " }").

Definition emit4b (mt : Match) : result string :=
  let* span_a := group mt 1 in
  let* span_b := group mt 2 in
  let* where_clause := group mt 3 in
  Ok ("when { " +:+ fmt span_a
      +:+ " } always { " +:+ fmt span_b +:+ fmt where_clause +:+ " }").

Definition emit5 (mt : Match) : result string :=
  let* span_a := group mt 1 in
  let* span_b := group mt 2 in
  Ok ("when { " +:+ fmt span_a +:+ " } always { " +:+ fmt span_b +:+ " }").

Definition emit6 (mt : Match) : result string :=
  let* span_a := group mt 1 in
  let* op := group mt 2 in
  let* span_b := group mt 3 in
  Ok ("# TODO: Add always/never clause" +:+ nl
      +:+ "when { count(" +:+ fmt span_a +:+ ") " +:+ fmt op
      +:+ " count(" +:+ fmt span_b +:+ ") }").

Definition emit7 (mt : Match) : result string :=
  let* span := group mt 1 in
  let* op := group mt 2 in
  let* value := group mt 3 in
  Ok ("# TODO: Add always/never clause (e.g., always { alert })" +:+ nl
      +:+ "when { count(" +:+ fmt span +:+ ") " +:+ fmt op
      +:+ " " +:+ fmt value +:+ " }").

Definition emit8 (mt : Match) : result string :=
  let* span := group mt 1 in
  let* where_clause := group mt 2 in
  Ok ("# TODO: Add always/never clause" +:+ nl
      +:+ "when { " +:+ fmt span +:+ fmt where_clause +:+ " }").

Definition emit9 (mt : Match) : result string :=
  let* span := group mt 1 in
  Ok ("# TODO: Add always/never clause" +:+ nl
      +:+ "when { " +:+ fmt span +:+ " }").

Definition convert_condition (old_condition : string) : result string :=
  (* Remove leading/trailing whitespace and newlines *)
  let condition := strip old_condition in
  match re_match pattern1 condition with Some mt => emit1 mt | None =>
  match re_match pattern2 condition with Some mt => emit2 mt | None =>
  match re_match pattern3 condition with Some mt => emit3 mt | None =>
  match re_match pattern4a condition with Some mt => emit4a mt | None =>
  match re_match pattern4b condition with Some mt => emit4b mt | None =>
  match re_match pattern5 condition with Some mt => emit5 mt | None =>
  match re_match pattern6 condition with Some mt => emit6 mt | None =>
  match re_match pattern7 condition with Some mt => emit7 mt | None =>
  match re_match pattern8 condition with Some mt => emit8 mt | None =>
  match re_match pattern9 condition with Some mt => emit9 mt | None =>
  (* Couldn't parse - return as comment for manual review *)
  Ok (manual_review condition)
  end end end end end end end end end end.

(** The same cascade as data: the recognizers in the order the function
    tries them, numbered from 0 (spec shapes 1 to 10). *)
Definition cascade : list (regex * (Match -> result string)) :=
  [ (pattern1, emit1); (pattern2, emit2); (pattern3, emit3);
    (pattern4a, emit4a); (pattern4b, emit4b); (pattern5, emit5);
    (pattern6, emit6); (pattern7, emit7); (pattern8, emit8);
    (pattern9, emit9) ].

(** Trying a list of recognizers in order, first match wins. *)
Fixpoint run (rs : list (regex * (Match -> result string))) (condition : string)
    : result string :=
  match rs with
  | [] => Ok (manual_review condition)
  | (p, f) :: rs' =>
      match re_match p condition with
      | Some mt => f mt
      | None => run rs' condition
      end
  end.

(** [re.match] of the [i]-th recognizer of the cascade. *)
Definition match_at (i : nat) (condition : string) : option Match :=
  match cascade !! i with
  | Some (p, _) => re_match p condition
  | None => None
  end.

(** The output the [i]-th recognizer produces from its match object. *)
Definition emit_at (i : nat) (mt : Match) : result string :=
  match cascade !! i with
  | Some (_, f) => f mt
  | None => Raise IndexError
  end.

End Conv.

(* ===================================================================== *)
(** ** [convert_yaml_file]: the batch converter over the loaded document *)
(* ===================================================================== *)

Module Batch.
Import Py Re Conv.

(** The objects [yaml.safe_load] builds live in a store; dictionaries and
    lists are referred to by location, so that YAML anchors and aliases
    share one object.  Dictionaries keep insertion order.  A [!!binary]
    scalar loads as [bytes], written [VBytes] with one character per
    byte. *)
Definition loc : Type := nat.

Inductive val : Type :=
  | VNone
  | VBool (b : bool)
  | VInt (z : Z)
  | VStr (s : string)
  | VBytes (b : string)
  | VRef (l : loc).

Inductive object : Type :=
  | ODict (items : list (string * val))
  | OList (items : list val).

(** [d.get(k)] *)
Fixpoint dict_get (k : string) (items : list (string * val)) : option val :=
  match items with
  | [] => None
  | (k', v) :: items' => if String.eqb k' k then Some v else dict_get k items'
  end.

(** [d[k] = v]: an existing key keeps its place, a new key goes last. *)
Fixpoint dict_set (k : string) (v : val) (items : list (string * val))
    : list (string * val) :=
  match items with
  | [] => [(k, v)]
  | (k', v') :: items' =>
      if String.eqb k' k then (k', v) :: items'
      else (k', v') :: dict_set k v items'
  end.

Definition is_condition_key (v : val) : bool :=
  match v with VStr s => String.eqb s "condition" | _ => false end.

(** ['condition' in rule] *)
Definition has_condition (h : gmap loc object) (rule : val) : result bool :=
  match rule with
  | VStr s => Ok (contains "condition" s)
  | VRef l =>
      match h !! l with
      | Some (ODict items) =>
          Ok (match dict_get "condition" items with Some _ => true | None => false end)
      | Some (OList vs) => Ok (existsb is_condition_key vs)
      | None => Raise TypeError
      end
  | _ => Raise TypeError
  end.

(** [rule['condition']] *)
Definition get_condition (h : gmap loc object) (rule : val) : result val :=
  match rule with
  | VRef l =>
      match h !! l with
      | Some (ODict items) =>
          match dict_get "condition" items with
          | Some v => Ok v
          | None => Raise KeyError
          end
      | _ => Raise TypeError
      end
  | _ => Raise TypeError
  end.

(** [rule['condition'] = new_condition] *)
Definition set_condition (h : gmap loc object) (rule : val) (v : val)
    : result (gmap loc object) :=
  match rule with
  | VRef l =>
      match h !! l with
      | Some (ODict items) => Ok (<[l := ODict (dict_set "condition" v items)]> h)
      | _ => Raise TypeError
      end
  | _ => Raise TypeError
  end.

(** [convert_condition(old_condition)] on a loaded value.  [bytes] has
    [.strip()] as [str] has, and the first [re.match] of a [str] pattern
    against it raises [TypeError]; no other loaded value has [.strip()]. *)
Definition convert_value (old_condition : val) : result string :=
  match old_condition with
  | VStr s => convert_condition s
  | VBytes _ => Raise TypeError
  | _ => Raise AttributeError
  end.

Definition in_marker : string :=
  "# TODO: DSL doesn't support 'in' operator - convert to multiple != checks"
  +:+ nl.

(** Loop state: the store and the two counters. *)
Record state : Type := mkState {
  heap : gmap loc object;
  converted_count : nat;
  needs_review_count : nat
}.

(** One iteration of [for rule in ...]. *)
Definition step (rule : val) (st : state) : result state :=
  let* present := has_condition (heap st) rule in
  if present : bool then
    let* old_condition := get_condition (heap st) rule in
    let* new_condition := convert_value old_condition in
    (* Check if needs manual review *)
    let needs_review_count :=
      if contains "TODO" new_condition || contains "#" new_condition
      then S (needs_review_count st) else needs_review_count st in
    (* Handle "not in [...]" syntax (not supported by DSL) *)
    let '(new_condition, needs_review_count) :=
      if contains " not in [" new_condition || contains " in [" new_condition
      then (in_marker +:+ new_condition, S needs_review_count)
      else (new_condition, needs_review_count) in
    let* h := set_condition (heap st) rule (VStr new_condition) in
    Ok (mkState h (S (converted_count st)) needs_review_count)
  else Ok st.

Fixpoint loop (rules : list val) (st : state) : result state :=
  match rules with
  | [] => Ok st
  | rule :: rules' => let* st' := step rule st in loop rules' st'
  end.

(** What [for rule in x] iterates over: the items of a list, the keys of
    a dictionary, the characters of a string, the bytes of a [bytes] as
    integers. *)
Definition iterate (h : gmap loc object) (x : val) : result (list val) :=
  match x with
  | VStr s => Ok (map (fun c => VStr (String c EmptyString)) (list_ascii_of_string s))
  | VBytes b => Ok (map (fun c => VInt (Z.of_nat (nat_of_ascii c))) (list_ascii_of_string b))
  | VRef l =>
      match h !! l with
      | Some (OList vs) => Ok vs
      | Some (ODict items) => Ok (map (fun kv => VStr (fst kv)) items)
      | None => Raise TypeError
      end
  | _ => Raise TypeError
  end.

(** [data.get('rules', [])], as the sequence the loop walks. *)
Definition get_rules (h : gmap loc object) (data : val) : result (list val) :=
  match data with
  | VRef d =>
      match h !! d with
      | Some (ODict items) =>
          match dict_get "rules" items with
          | Some x => iterate h x
          | None => Ok []
          end
      | _ => Raise AttributeError
      end
  | _ => Raise AttributeError
  end.

(** [convert_yaml_file] between [yaml.safe_load] and [yaml.dump]: [data]
    is the loaded document, the result is the store handed to the dumper
    with [(converted_count, needs_review_count)]. *)
Definition convert_yaml_file (h : gmap loc object) (data : val)
    : result (gmap loc object * (nat * nat)) :=
  let* rules := get_rules h data in
  let* st := loop rules (mkState h 0 0) in
  Ok (heap st, (converted_count st, needs_review_count st)).

(** The counters a run returns, if it returns. *)
Definition counters (r : result (gmap loc object * (nat * nat)))
    : option (nat * nat) :=
  match r with Ok (_, c) => Some c | Raise _ => None end.

(** A loaded document [{rules: [{condition: c}]}]. *)
Definition single_rule (c : string) : gmap loc object :=
  {[ 0%nat := ODict [("rules", VRef 1%nat)];
     1%nat := OList [VRef 2%nat];
     2%nat := ODict [("condition", VStr c)] ]}.

(** Two field lists with the same keys in the same order and the same
    value under every key but [condition]. *)
Definition same_fields (items items' : list (string * val)) : Prop :=
  Forall2 (fun kv kv' =>
             fst kv = fst kv' /\ (fst kv <> "condition" -> snd kv = snd kv'))
          items items'.

Definition frame_obj (o o' : object) : Prop :=
  match o, o' with
  | OList vs, OList vs' => vs = vs'
  | ODict items, ODict items' => same_fields items items'
  | _, _ => False
  end.

(** The two stores hold the same objects, lists unchanged and
    dictionaries changed at most under [condition]. *)
Definition frame (h h' : gmap loc object) : Prop :=
  forall l,
    match h !! l, h' !! l with
    | Some o, Some o' => frame_obj o o'
    | None, None => True
    | _, _ => False
    end.

(** A rule record: a dictionary whose [condition], if any, is a string. *)
Definition rule_ok (h : gmap loc object) (v : val) : Prop :=
  exists l items,
    v = VRef l /\ h !! l = Some (ODict items)
    /\ forall c, dict_get "condition" items = Some c -> exists s, c = VStr s.

(** A document shaped as [{rules: [record, ...]}]. *)
Definition well_shaped (h : gmap loc object) (data : val) : Prop :=
  exists rules, get_rules h data = Ok rules /\ Forall (rule_ok h) rules.

(** A document with a shared record: the second and fourth rule are the
    same object, and the third record refers to it under [parent]. *)
Definition shared_doc : gmap loc object :=
  {[ 0%nat := ODict [("version", VInt 2); ("rules", VRef 1%nat)];
     1%nat := OList [VRef 4%nat; VRef 2%nat; VRef 3%nat; VRef 2%nat];
     2%nat := ODict [("name", VStr "a");
                     ("condition", VStr "trace.has(A) and trace.has(B)");
                     ("severity", VInt 3)];
     3%nat := ODict [("name", VStr "b"); ("parent", VRef 2%nat)];
     4%nat := ODict [("condition", VStr "trace.count(X) > 5");
                     ("tags", VRef 5%nat)];
     5%nat := OList [VStr "x"; VStr "y"] ]}.

End Batch.


(* ===================================================================== *)
(** ** The parser's diagnostics ([refactor-parser.py]) *)
(* ===================================================================== *)

Module Parser.
Import Py.

(** Modelled from the spec: the Java class [Token] is not part of the
    sources.  These are the token kinds of section 3, with the invalid
    kind of section 4.1 for a character the lexer does not know. *)
Inductive TokenKind : Type :=
  | IDENTIFIER | KEYWORD | DOT | LPAREN | RPAREN | OPERATOR
  | NUMBER | STRING | BOOLEAN | LIST_OPEN | LIST_CLOSE
  | INVALID | EOF.

(** Modelled from the spec: the Java class [Token] is not part of the
    sources.  Section 3 gives a token its kind, its text and the offset of
    its first character; the script reads them as [token.type()],
    [token.value()] and [token.position()]. *)
Record Token : Type := mkToken {
  type : TokenKind;
  value : string;
  position : Z
}.

(** Modelled from the spec: the enumeration [ParseError.ErrorType] is not
    part of the sources.  The script names [INVALID_IDENTIFIER] and
    [INVALID_VALUE]; section 3 gives the closed set. *)
Inductive ErrorType : Type :=
  | UNEXPECTED_END | UNEXPECTED_TOKEN | MISSING_TOKEN
  | INVALID_IDENTIFIER | INVALID_VALUE | INVALID_OPERATOR.

(** Modelled from the spec: the Java class [ParseError] is not part of the
    sources.  The script calls its constructor as
    [new ParseError(message, input, position, type, hint)], the fields of
    section 3; the position field is [err_position] here, [position] being
    the token's. *)
Record ParseError : Type := mkParseError {
  message : string;
  input : string;
  err_position : Z;
  kind : ErrorType;
  hint : option string
}.


(** Modelled from the spec: the body of [ParseError.unexpectedToken] is not
    part of the sources.  Section 4.2: the expected description and the
    actual token text go into the message; input and position are stored as
    given. *)
Definition unexpectedToken (inp : string) (pos : Z) (expected actual : string)
    : ParseError :=
  mkParseError ("Expected " +:+ expected +:+ " but got: " +:+ actual) inp pos
    UNEXPECTED_TOKEN None.

(** Modelled from the spec: the body of [ParseError.missingToken] is not
    part of the sources.  Section 3: the expected description only; input
    and position are stored as given. *)
Definition missingToken (inp : string) (pos : Z) (expected : string)
    : ParseError :=
  mkParseError ("Expected " +:+ expected) inp pos MISSING_TOKEN None.

(** Modelled from the spec: the body of [ParseError.invalidOperator] is not
    part of the sources.  Section 4.2: a token in operator position that is
    no comparison operator; input and position are stored as given. *)
Definition invalidOperator (inp : string) (pos : Z) (actual : string)
    : ParseError :=
  mkParseError ("Expected comparison operator but got: " +:+ actual) inp pos
    INVALID_OPERATOR None.

(** *** Lexer *)

(** Modelled from the spec: the Java class [Lexer] is not part of the
    sources.  Section 4.1: it retains the input for [getInput()] and tracks
    a position in it. *)
Record Lexer : Type := mkLexer {
  getInput : string;
  offset : nat
}.

Fixpoint drop (n : nat) (s : string) : string :=
  match n, s with
  | O, _ => s
  | S n', String _ s' => drop n' s'
  | S _, EmptyString => EmptyString
  end.

(** Length of the longest prefix satisfying [p], and what follows. *)
Fixpoint take_while (p : ascii -> bool) (s : string) : nat * string :=
  match s with
  | String c s' =>
      if p c then let '(n, r) := take_while p s' in (S n, r) else (0%nat, s)
  | EmptyString => (0%nat, EmptyString)
  end.

(** Modelled from the spec: the characters of identifier-shaped text
    (section 4.1); the lexer's own tests are not part of the sources. *)
Definition is_letter (c : ascii) : bool :=
  let n := nat_of_ascii c in
  (((65 <=? n) && (n <=? 90)) || ((97 <=? n) && (n <=? 122)) || (n =? 95))%nat.

(** Modelled from the spec: identifier-shaped text goes on over letters,
    the underscore and digits (section 4.1). *)
Definition is_ident_char (c : ascii) : bool := is_letter c || is_digit c.

(** Modelled from the spec: a numeric literal goes on over digits and the
    decimal point (section 4.1). *)
Definition is_number_char (c : ascii) : bool :=
  is_digit c || Ascii.eqb c "."%char.

(** Modelled from the spec: the reserved words of section 3; the lexer's
    table is not part of the sources. *)
Definition keywords : list string :=
  ["trace"; "has"; "count"; "where"; "when"; "always"; "never";
   "and"; "or"; "not"].

(** Modelled from the spec: keywords are recognized case-sensitively, the
    two boolean literals are literals, any other word is an identifier
    (sections 3 and 4.1). *)
Definition word_kind (w : string) : TokenKind :=
  if existsb (String.eqb w) keywords then KEYWORD
  else if String.eqb w "true" || String.eqb w "false" then BOOLEAN
  else IDENTIFIER.

(** Modelled from the spec: [Lexer]'s scanning is not part of the sources.
    Kind and length of the token that starts with [c], followed by [r]
    (section 4.1): words, numbers with an optional leading [-] and a
    decimal point, strings in single quotes without escapes, the
    punctuation and the six comparison operators of section 3; anything
    else is one [INVALID] character. *)
Definition scan (c : ascii) (r : string) : TokenKind * nat :=
  if is_letter c then
    let n := S (fst (take_while is_ident_char r)) in
    (word_kind (substring 0 n (String c r)), n)
  else if is_digit c then (NUMBER, S (fst (take_while is_number_char r)))
  else if Ascii.eqb c "-"%char then
    match r with
    | String d _ =>
        if is_digit d then (NUMBER, S (fst (take_while is_number_char r)))
        else (INVALID, 1%nat)
    | EmptyString => (INVALID, 1%nat)
    end
  else if Ascii.eqb c "'"%char then
    match take_while (fun d => negb (Ascii.eqb d "'"%char)) r with
    | (n, String _ _) => (STRING, S (S n))
    | (n, EmptyString) => (INVALID, S n)
    end
  else if Ascii.eqb c "."%char then (DOT, 1%nat)
  else if Ascii.eqb c "("%char then (LPAREN, 1%nat)
  else if Ascii.eqb c ")"%char then (RPAREN, 1%nat)
  else if Ascii.eqb c "["%char then (LIST_OPEN, 1%nat)
  else if Ascii.eqb c "]"%char then (LIST_CLOSE, 1%nat)
  else if Ascii.eqb c "<"%char || Ascii.eqb c ">"%char then
    match r with
    | String "="%char _ => (OPERATOR, 2%nat)
    | _ => (OPERATOR, 1%nat)
    end
  else if Ascii.eqb c "="%char || Ascii.eqb c "!"%char then
    match r with
    | String "="%char _ => (OPERATOR, 2%nat)
    | _ => (INVALID, 1%nat)
    end
  else (INVALID, 1%nat).

(** Modelled from the spec: the body of [lexer.next()] is not part of the
    sources.  Section 4.1: whitespace is skipped and counted, the token
    carries the offset of its first character, the end of the input gives
    an [EOF] token at the input's length. *)
Definition next (lx : Lexer) : Token * Lexer :=
  let '(n, r) := take_while is_space (drop (offset lx) (getInput lx)) in
  let start := (offset lx + n)%nat in
  match r with
  | EmptyString =>
      (mkToken EOF "" (Z.of_nat start), mkLexer (getInput lx) start)
  | String c r' =>
      let '(k, len) := scan c r' in
      (mkToken k (substring 0 len r) (Z.of_nat start),
       mkLexer (getInput lx) (start + len)%nat)
  end.





End Parser.

Module FluoDslParser.
Import Py Parser.

(** The eighteen throws the script rewrites: the one of [parse()] and these
    seventeen, named here after the message each replaces, in the order of
    the script (lines 53-243). *)
Inductive Site : Type :=
  | ExpectedTrace
  | ExpectedDotAfterTrace
  | ExpectedFunctionName
  | UnknownFunction (function : string)
  | ExpectedParenAfterHas
  | ExpectedOperationName
  | ExpectedCloseAfterOperationName
  | ExpectedParenAfterWhere
  | ExpectedAttributeName
  | ExpectedOperatorInWhere
  | ExpectedCloseAfterWhereClause
  | UnexpectedValueType
  | ExpectedParenAfterCount
  | ExpectedPattern
  | ExpectedCloseAfterPattern
  | ExpectedOperatorInCount
  | ExpectedNumber.

(** Modelled from the spec: what [token.type()] prints as; the enumeration
    is not part of the sources. *)
Definition kind_name (k : TokenKind) : string :=
  match k with
  | IDENTIFIER => "IDENTIFIER" | KEYWORD => "KEYWORD" | DOT => "DOT"
  | LPAREN => "LPAREN" | RPAREN => "RPAREN" | OPERATOR => "OPERATOR"
  | NUMBER => "NUMBER" | STRING => "STRING" | BOOLEAN => "BOOLEAN"
  | LIST_OPEN => "LIST_OPEN" | LIST_CLOSE => "LIST_CLOSE"
  | INVALID => "INVALID" | EOF => "EOF"
  end.

(** The [ParseError] each site throws, as the script writes it: every one
    is built from [lexer.getInput()] and [token.position()]. *)
Definition raise (site : Site) (lexer : Lexer) (token : Token) : ParseError :=
  match site with
  | ExpectedTrace =>
      unexpectedToken (getInput lexer) (position token) "'trace'" (value token)
  | ExpectedDotAfterTrace =>
      missingToken (getInput lexer) (position token) "'.' after 'trace'"
  | ExpectedFunctionName =>
      unexpectedToken (getInput lexer) (position token)
        "function name (has/count)" (value token)
  | UnknownFunction function =>
      mkParseError ("Unknown function: " +:+ function) (getInput lexer)
        (position token) INVALID_IDENTIFIER
        (Some "Valid functions are: has, count")
  | ExpectedParenAfterHas =>
      missingToken (getInput lexer) (position token) "'(' after 'has'"
  | ExpectedOperationName =>
      unexpectedToken (getInput lexer) (position token) "operation name"
        (value token)
  | ExpectedCloseAfterOperationName =>
      missingToken (getInput lexer) (position token) "')' after operation name"
  | ExpectedParenAfterWhere =>
      missingToken (getInput lexer) (position token) "'(' after 'where'"
  | ExpectedAttributeName =>
      unexpectedToken (getInput lexer) (position token) "attribute name"
        (value token)
  | ExpectedOperatorInWhere =>
      invalidOperator (getInput lexer) (position token) (value token)
  | ExpectedCloseAfterWhereClause =>
      missingToken (getInput lexer) (position token) "')' after where clause"
  | UnexpectedValueType =>
      mkParseError ("Unexpected value type: " +:+ kind_name (type token))
        (getInput lexer) (position token) INVALID_VALUE
        (Some "Expected number, string, boolean, or list")
  | ExpectedParenAfterCount =>
      missingToken (getInput lexer) (position token) "'(' after 'count'"
  | ExpectedPattern =>
      unexpectedToken (getInput lexer) (position token) "pattern" (value token)
  | ExpectedCloseAfterPattern =>
      missingToken (getInput lexer) (position token) "')' after pattern"
  | ExpectedOperatorInCount =>
      invalidOperator (getInput lexer) (position token) (value token)
  | ExpectedNumber =>
      unexpectedToken (getInput lexer) (position token) "number" (value token)
  end.

(** Modelled from the spec: the bodies of the parser's methods
    ([FluoDslParser.java]) are not part of the sources, only their throws
    are.  Section 4.2 has every production peek at or consume tokens and
    raise a [ParseError] on a violation; the order of the reads and the
    tests between them are left open.  A body is any tree of reads from
    [this.lexer], with the rest depending on the token read, that ends by
    returning or by throwing at a site of the script with a token. *)
Inductive Code (A : Type) : Type :=
  | Return (a : A)
  | Next (k : Token -> Code A)
  | Peek (k : Token -> Code A)
  | Throw (site : Site) (token : Token).

Arguments Return {A} a.
Arguments Next {A} k.
Arguments Peek {A} k.
Arguments Throw {A} site token.

(** Modelled from the spec: how a body runs on [this.lexer], the method
    bodies not being part of the sources.  [Next] is the script's
    [token = lexer.next()], [Peek] reads the same token and leaves the
    lexer where it is, a throw builds its error from the lexer's input. *)
Fixpoint run {A} (code : Code A) (lexer : Lexer) : ParseError + A :=
  match code with
  | Return a => inr a
  | Next k => let '(token, lexer') := next lexer in run (k token) lexer'
  | Peek k => run (k (fst (next lexer))) lexer
  | Throw site token => inl (raise site lexer token)
  end.




End FluoDslParser.

(* ===================================================================== *)
(** ** Notions used to state the properties *)
(* ===================================================================== *)

Module Shape.
Import Py Re.

(** Length of the longest prefix of [s] inside the class, and what follows. *)
Fixpoint span (cl : cclass) (s : string) : nat * string :=
  match s with
  | String c s' =>
      if in_class cl c then let '(n, r) := span cl s' in (S n, r) else (0%nat, s)
  | EmptyString => (0%nat, EmptyString)
  end.

(** The literal character a pattern must read first, when it has one. *)
Fixpoint first_lit (r : regex) : option ascii :=
  match r with
  | Str (String c _) => Some c
  | Seq r1 _ => first_lit r1
  | Group _ r' => first_lit r'
  | _ => None
  end.

(** A continuation that cannot succeed on text starting inside the class:
    the greedy loop never has to give characters back to it. *)
Definition guarded (cl : cclass) (k : nat -> string -> option (nat * marks)) : Prop :=
  forall p c t, in_class cl c = true -> k p (String c t) = None.

(** A continuation that fails on text starting inside the class, whatever
    the marks. *)
Definition kguarded (cl : cclass) (k : cont) : Prop :=
  forall p c t mk, in_class cl c = true -> k p (String c t) mk = None.

(** Every span recorded so far lies before position [p]. *)
Definition bounded (p : nat) (mk : marks) : Prop :=
  forall n a b, mk !! n = Some (Some (a, b)) -> (a <= b <= p)%nat.

(** [trace.has(NAME)] at the head of [s]: length of NAME and what follows. *)
Definition scan_call (open : string) (s : string) : option (nat * string) :=
  match lit open s with
  | Some s1 =>
      match span (CNot ")") s1 with
      | (0%nat, _) => None
      | (a, s2) =>
          match lit ")" s2 with
          | Some s3 => Some (a, s3)
          | None => None
          end
      end
  | None => None
  end.

(** [\s+and\s+] at the head of [s]: its length and what follows. *)
Definition scan_and (s : string) : option (nat * string) :=
  match span CSpace s with
  | (0%nat, _) => None
  | (a, s1) =>
      match lit "and" s1 with
      | Some s2 =>
          match span CSpace s2 with
          | (0%nat, _) => None
          | (b, s3) => Some ((a + 3 + b)%nat, s3)
          end
      | None => None
      end
  end.

End Shape.

Module Scoping.
Import Py Parser FluoDslParser.



End Scoping.

(* ===================================================================== *)
(** ** Legacy texts by shape *)
(* ===================================================================== *)

Module Text.
Import Py Re.

(** Every character of [s] lies in the class. *)
Fixpoint all_in (cl : cclass) (s : string) : bool :=
  match s with
  | String c s' => in_class cl c && all_in cl s'
  | EmptyString => true
  end.

Definition nonempty (s : string) : bool :=
  match s with EmptyString => false | String _ _ => true end.

(** First character, if any. *)
Definition hd (s : string) : option ascii :=
  match s with EmptyString => None | String c _ => Some c end.

(** The text does not go on inside the class: it is over or its first
    character lies outside. *)
Definition stops (cl : cclass) (s : string) : bool :=
  match s with EmptyString => true | String c _ => negb (in_class cl c) end.

(** Text that [[^)]+] matches whole: a span name, the body of a where
    clause. *)
Definition is_name (a : string) : bool := nonempty a && all_in (CNot ")") a.

(** Text that [\s+] matches whole. *)
Definition is_blank (w : string) : bool := nonempty w && all_in CSpace w.

(** Text that [[!<>=]+] matches whole. *)
Definition is_op (o : string) : bool := nonempty o && all_in (CSet "!<>=") o.

(** Text that [\d+] matches whole. *)
Definition is_digits (n : string) : bool := nonempty n && all_in CDigit n.

End Text.

(* ===================================================================== *)
(** ** Notions used to state properties of the batch loop *)
(* ===================================================================== *)

Module BatchSpec.
Import Py Re Conv Batch.

(** The value is a record that has a [condition] key. *)
Definition with_condition (h : gmap loc object) (v : val) : bool :=
  match v with
  | VRef l =>
      match h !! l with
      | Some (ODict items) =>
          match dict_get "condition" items with Some _ => true | None => false end
      | _ => false
      end
  | _ => false
  end.

(** Text as the converter writes it: it opens with [when {] or [# TODO]. *)
Definition converted_text (out : string) : bool :=
  startswith "when {" out || startswith "# TODO" out.

(** If the value is a record with a condition, the condition is text the
    converter wrote. *)
Definition holds_converted (h : gmap loc object) (v : val) : Prop :=
  forall l items c,
    v = VRef l -> h !! l = Some (ODict items) ->
    dict_get "condition" items = Some c ->
    exists out, c = VStr out /\ converted_text out = true.

(** A document whose second rule has an empty [condition:] entry, which
    loads as [None]. *)
Definition broken_doc : gmap loc object :=
  {[ 0%nat := ODict [("rules", VRef 1%nat)];
     1%nat := OList [VRef 2%nat; VRef 3%nat; VRef 4%nat];
     2%nat := ODict [("name", VStr "a"); ("condition", VStr "trace.has(A)")];
     3%nat := ODict [("name", VStr "b"); ("condition", VNone)];
     4%nat := ODict [("name", VStr "c"); ("condition", VStr "trace.has(C)")] ]}.

(** A document whose second rule has a [!!binary] condition, which loads
    as [bytes]. *)
Definition binary_doc : gmap loc object :=
  {[ 0%nat := ODict [("rules", VRef 1%nat)];
     1%nat := OList [VRef 2%nat; VRef 3%nat];
     2%nat := ODict [("name", VStr "a"); ("condition", VStr "trace.has(A)")];
     3%nat := ODict [("name", VStr "b");
                     ("condition", VBytes "trace.has(B)")] ]}.

End BatchSpec.

(* ===================================================================== *)
(** ** [clean-tests.py]: blank-line cleanup *)
(* ===================================================================== *)

Module Clean.
Import Py Re.

(** Length of the match of [p] at the head of [s], if it matches there. *)
Definition match_len (p : regex) (s : string) : option nat :=
  match re_match p s with
  | Some mt => Some (m_end mt)
  | None => None
  end.

(** [re.sub(p, repl, s)] for a replacement without escapes, on patterns
    without anchors or look-behind: the text is scanned from the left, a
    match at the current position is replaced and the scan resumes behind
    it (an empty match is replaced and the character copied, as Python 3.7
    does).  [skip] counts the characters of the last match still to be
    dropped. *)
Fixpoint sub_from (p : regex) (repl : string) (skip : nat) (s : string)
    : string :=
  match s with
  | EmptyString =>
      match skip with
      | O => match match_len p EmptyString with
             | Some _ => repl
             | None => EmptyString
             end
      | S _ => EmptyString
      end
  | String c s' =>
      match skip with
      | S k => sub_from p repl k s'
      | O =>
          match match_len p s with
          | Some (S n) => repl +:+ sub_from p repl n s'
          | Some O => repl +:+ String c (sub_from p repl 0 s')
          | None => String c (sub_from p repl 0 s')
          end
      end
  end.

Definition re_sub (p : regex) (repl s : string) : string := sub_from p repl 0 s.

(** [r'\n\n\n+'] *)
Definition blank_lines : regex := Str (nl +:+ nl) ⋅ Plus (CSet nl).

(** [content = re.sub(r'\n\n\n+', '\n\n', content)], the clean-up of
    extra blank lines in [clean_test_file]. *)
Definition collapse_blank_lines (content : string) : string :=
  re_sub blank_lines (nl +:+ nl) content.

(** The text without its newline characters. *)
Fixpoint without_newlines (s : string) : string :=
  match s with
  | EmptyString => EmptyString
  | String c s' =>
      if Ascii.eqb (ascii_of_nat 10) c then without_newlines s'
      else String c (without_newlines s')
  end.

End Clean.

(* ===================================================================== *)
(** ** Facts about the string helpers and the matcher *)
(* ===================================================================== *)

Module ReFacts.
Import Py Re Shape.

Lemma app_cons (c : ascii) (a b : string) :
  String c a +:+ b = String c (a +:+ b).
Proof. reflexivity. Qed.

Lemma app_nil_l (b : string) : "" +:+ b = b.
Proof. reflexivity. Qed.

Lemma lit_app (p s s' : string) : lit p s = Some s' -> s = p +:+ s'.
Proof.
  revert s. induction p as [|c p IH]; intros s; cbn.
  - intros [= ->]. reflexivity.
  - destruct s as [|d s]; [discriminate|].
    destruct (Ascii.eqb_spec c d) as [->|]; [|discriminate].
    intros H. rewrite app_cons. f_equal. apply IH, H.
Qed.

Lemma lit_head (c d : ascii) (p s s' : string) :
  lit (String c p) (String d s) = Some s' -> c = d.
Proof. cbn. destruct (Ascii.eqb_spec c d); [easy|discriminate]. Qed.

Lemma length_app (a b : string) :
  String.length (a +:+ b) = (String.length a + String.length b)%nat.
Proof.
  induction a as [|c a IH]; [reflexivity|].
  rewrite app_cons. cbn. now rewrite IH.
Qed.

Lemma app_assoc (a b c : string) : (a +:+ b) +:+ c = a +:+ b +:+ c.
Proof.
  induction a as [|x a IH]; [reflexivity|].
  rewrite !app_cons. now rewrite IH.
Qed.

Lemma substring_app_l (u t : string) : forall a n,
  (a + n <= String.length u)%nat ->
  substring a n (u +:+ t) = substring a n u.
Proof.
  induction u as [|c u IH]; intros a n Hn.
  - cbn in Hn. assert (a = 0%nat) as -> by lia. assert (n = 0%nat) as -> by lia.
    rewrite app_nil_l. destruct t; reflexivity.
  - rewrite app_cons. cbn [String.length] in Hn.
    destruct a as [|a]; cbn [substring].
    + destruct n as [|n]; [reflexivity|]. f_equal. apply IH. lia.
    + apply IH. lia.
Qed.

Lemma slice_app_l (u t : string) (a b : nat) :
  (a <= b <= String.length u)%nat -> slice (u +:+ t) a b = slice u a b.
Proof. intros H. unfold slice. apply substring_app_l. lia. Qed.

(** *** [rstrip] and [strip] keep a non-blank head *)

Lemma rstrip_nonspace (c : ascii) (s : string) :
  is_space c = false -> rstrip (String c s) = String c (rstrip s).
Proof. intros Hc. cbn. rewrite Hc. destruct (rstrip s); reflexivity. Qed.

Lemma rstrip_app_nonspace (u : string) (c : ascii) (t : string) :
  is_space c = false ->
  rstrip (u +:+ String c t) = u +:+ String c (rstrip t).
Proof.
  intros Hc. induction u as [|d u IH].
  - apply rstrip_nonspace, Hc.
  - rewrite app_cons. cbn [rstrip]. rewrite IH.
    destruct u; reflexivity.
Qed.

Lemma strip_nonspace (c : ascii) (s : string) :
  is_space c = false -> strip (String c s) = String c (rstrip s).
Proof.
  intros Hc. unfold strip. cbn [lstrip]. rewrite Hc.
  apply rstrip_nonspace, Hc.
Qed.

(** *** Spans of a class and greedy repetition *)

Lemma star_guarded cl k pos s :
  guarded cl k ->
  star cl k pos s = k (pos + fst (span cl s))%nat (snd (span cl s)).
Proof.
  intros Hk. revert pos. induction s as [|c s IH]; intros pos; cbn.
  - now rewrite Nat.add_0_r.
  - destruct (in_class cl c) eqn:Hc.
    + rewrite IH. destruct (span cl s) as [n r]. cbn [fst snd].
      replace (pos + S n)%nat with (S pos + n)%nat by lia.
      destruct (k (S pos + n)%nat r) eqn:E; [reflexivity|].
      apply Hk, Hc.
    + cbn [fst snd]. now rewrite Nat.add_0_r.
Qed.

Lemma m_seq r1 r2 k pos s mk : m (r1 ⋅ r2) k pos s mk = m r1 (m r2 k) pos s mk.
Proof. reflexivity. Qed.

Lemma m_opt r k pos s mk :
  m (Opt r) k pos s mk =
  match m r k pos s mk with
  | Some x => Some x
  | None => k pos s mk
  end.
Proof. reflexivity. Qed.

Lemma m_str l k pos s mk :
  m (Str l) k pos s mk =
  match lit l s with
  | Some s' => k (pos + String.length l)%nat s' mk
  | None => None
  end.
Proof. reflexivity. Qed.

Lemma m_plus_guarded cl k pos s mk :
  guarded cl (fun p t => k p t mk) ->
  m (Plus cl) k pos s mk =
  match span cl s with
  | (0%nat, _) => None
  | (n, r) => k (pos + n)%nat r mk
  end.
Proof.
  intros Hk. destruct s as [|c s]; [reflexivity|]. cbn [m span].
  destruct (in_class cl c) eqn:Hc; [|reflexivity].
  rewrite star_guarded by exact Hk.
  destruct (span cl s) as [n r]. cbn [fst snd].
  now replace (S pos + n)%nat with (pos + S n)%nat by lia.
Qed.

(** *** Where the continuation is called *)

Lemma bounded_mono p q mk : (p <= q)%nat -> bounded p mk -> bounded q mk.
Proof. intros Hpq H n a b Hn. specialize (H n a b Hn). lia. Qed.

Lemma bounded_insert p q n mk :
  (p <= q)%nat -> bounded q mk -> bounded q (<[n := Some (p, q)]> mk).
Proof.
  intros Hpq H i a b Hi.
  destruct (decide (i = n)) as [Heq|Hne].
  - subst i. destruct (decide (n < length mk)%nat) as [Hlt|Hge].
    + rewrite list_lookup_insert_eq in Hi by exact Hlt.
      injection Hi as <- <-. lia.
    + rewrite list_insert_ge in Hi by lia. eauto.
  - rewrite list_lookup_insert_ne in Hi by congruence. eauto.
Qed.

Lemma bounded_replicate p n : bounded p (replicate n None).
Proof.
  intros i a b Hi. apply lookup_replicate in Hi as [Hi _]. discriminate.
Qed.

(** A successful run of [star] is a successful call of its continuation
    further right in the same text. *)
Lemma star_inv cl k pos s res :
  star cl k pos s = Some res ->
  exists u t, s = u +:+ t /\ k (pos + String.length u)%nat t = Some res.
Proof.
  revert pos. induction s as [|c s IH]; intros pos; cbn.
  - intros H. exists "", "". cbn. now rewrite Nat.add_0_r.
  - destruct (in_class cl c).
    + destruct (star cl k (S pos) s) as [r|] eqn:E.
      * intros [= <-]. destruct (IH _ E) as (u & t & -> & Hk).
        exists (String c u), t. split; [reflexivity|].
        cbn. now replace (pos + S (String.length u))%nat
          with (S pos + String.length u)%nat by lia.
      * intros H. exists "", (String c s). cbn. now rewrite Nat.add_0_r.
    + intros H. exists "", (String c s). cbn. now rewrite Nat.add_0_r.
Qed.

(** The same for the matcher, with the marks it hands over. *)
Lemma m_inv r : forall k pos s mk res,
  m r k pos s mk = Some res ->
  exists u t mk', s = u +:+ t /\ k (pos + String.length u)%nat t mk' = Some res
    /\ length mk' = length mk
    /\ (bounded pos mk -> bounded (pos + String.length u)%nat mk').
Proof.
  induction r as [l|cl|cl|r IH|n r IH|r1 IH1 r2 IH2|r IH]; intros k pos s mk res; cbn [m].
  - destruct (lit l s) as [s'|] eqn:E; [|discriminate]. intros H.
    exists l, s', mk. split; [now apply lit_app|]. split; [exact H|].
    split; [reflexivity|]. apply bounded_mono. lia.
  - destruct s as [|c s]; [discriminate|].
    destruct (in_class cl c); [|discriminate]. intros H.
    apply star_inv in H as (u & t & -> & Hk).
    exists (String c u), t, mk. split; [reflexivity|]. cbn.
    replace (pos + S (String.length u))%nat
      with (S pos + String.length u)%nat by lia.
    split; [exact Hk|]. split; [reflexivity|]. apply bounded_mono. lia.
  - intros H. apply star_inv in H as (u & t & -> & Hk).
    exists u, t, mk. split; [reflexivity|]. split; [exact Hk|].
    split; [reflexivity|]. apply bounded_mono. lia.
  - destruct (m r k pos s mk) as [x|] eqn:E.
    + intros [= <-]. apply IH, E.
    + intros H. exists "", s, mk. cbn [String.length]. rewrite Nat.add_0_r.
      split; [reflexivity|]. split; [exact H|]. split; [reflexivity|]. auto.
  - intros H. apply IH in H as (u & t & mk' & -> & Hk & Hlen & Hb).
    exists u, t, (<[n := Some (pos, (pos + String.length u)%nat)]> mk').
    split; [reflexivity|]. split; [exact Hk|].
    split; [now rewrite length_insert|].
    intros Hmk. apply bounded_insert; [lia|auto].
  - intros H. apply IH1 in H as (u1 & t1 & mk1 & -> & Hk1 & Hlen1 & Hb1).
    apply IH2 in Hk1 as (u2 & t2 & mk2 & -> & Hk2 & Hlen2 & Hb2).
    exists (u1 +:+ u2), t2, mk2. split; [now rewrite app_assoc|].
    rewrite length_app, Nat.add_assoc. split; [exact Hk2|].
    split; [congruence|]. auto.
  - destruct (m r _ pos s mk); [discriminate|]. intros H.
    exists "", s, mk. cbn [String.length]. rewrite Nat.add_0_r.
    split; [reflexivity|]. split; [exact H|]. split; [reflexivity|]. auto.
Qed.

(** *** Patterns that open with a literal character *)

Lemma m_first_lit r : forall c0 c k pos t mk,
  first_lit r = Some c0 -> c <> c0 -> m r k pos (String c t) mk = None.
Proof.
  induction r as [l|cl|cl|r IH|n r IH|r1 IH1 r2 IH2|r IH];
    intros c0 c k pos t mk Hf Hc; cbn in Hf; try discriminate.
  - destruct l as [|d l]; [discriminate|]. injection Hf as ->. cbn.
    destruct (Ascii.eqb_spec c0 c); [congruence|reflexivity].
  - cbn [m]. eapply IH; eauto.
  - cbn [m]. eapply IH1; eauto.
Qed.

Lemma re_match_first_lit p c0 c t :
  first_lit p = Some c0 -> c <> c0 -> re_match p (String c t) = None.
Proof.
  intros Hf Hc. unfold re_match. now rewrite (m_first_lit p c0 c).
Qed.

End ReFacts.

(* ===================================================================== *)
(** ** Properties of [convert_condition] *)
(* ===================================================================== *)

Module ConvFacts.
Import Py Re Conv Shape ReFacts.

Lemma re_match_groups (p : regex) (s : string) (mt : Match) :
  re_match p s = Some mt -> m_groups mt = ngroups p /\ m_string mt = s.
Proof.
  unfold re_match. destruct (m p accept 0%nat s _) as [[e mk]|]; [|discriminate].
  intros [= <-]. split; reflexivity.
Qed.

Lemma group_ok (mt : Match) (n : nat) :
  (n <= m_groups mt)%nat -> exists g, group mt n = Ok g.
Proof.
  intros Hn. unfold group.
  destruct (Nat.ltb_spec (m_groups mt) n) as [Hlt|_]; [lia|].
  destruct (m_marks mt !! n) as [[[a b]|]|]; eauto.
Qed.

(** Every branch reads only groups its pattern has. *)
Ltac groups_ok H :=
  apply re_match_groups in H; destruct H as [H _];
  repeat match goal with
  | |- context [group ?mt ?n] =>
      let g := fresh "g" in let Hg := fresh "Hg" in
      destruct (group_ok mt n) as [g Hg];
      [rewrite H; vm_compute; lia | rewrite Hg; cbn [bind]]
  end.

Lemma cascade_emits (i : nat) (s : string) (mt : Match) :
  match_at i s = Some mt -> exists out, emit_at i mt = Ok out.
Proof.
  unfold match_at, emit_at.
  do 10 (destruct i as [|i];
         [cbn [cascade lookup list_lookup]; intros H;
          unfold emit1, emit2, emit3, emit4a, emit4b, emit5, emit6, emit7,
            emit8, emit9;
          groups_ok H; eexists; reflexivity|]).
  cbn. discriminate.
Qed.

(** *** The building blocks of the patterns never backtrack *)

Lemma kguarded_first_lit cl r c0 (k : cont) :
  first_lit r = Some c0 -> in_class cl c0 = false -> kguarded cl (m r k).
Proof.
  intros Hf Hc0 p c t mk Hc. apply (m_first_lit r c0); [exact Hf|congruence].
Qed.

Lemma m_plus_det cl k pos s mk :
  kguarded cl k ->
  m (Plus cl) k pos s mk =
  match span cl s with
  | (0%nat, _) => None
  | (n, r) => k (pos + n)%nat r mk
  end.
Proof. intros Hk. apply m_plus_guarded. intros p c t Hc. now apply Hk. Qed.

Lemma m_group_plus_det n cl k pos s mk :
  kguarded cl k ->
  m (Group n (Plus cl)) k pos s mk =
  match span cl s with
  | (0%nat, _) => None
  | (a, r) => k (pos + a)%nat r (<[n := Some (pos, (pos + a)%nat)]> mk)
  end.
Proof.
  intros Hk.
  change (m (Group n (Plus cl)) k pos s mk)
    with (m (Plus cl) (fun p t c => k p t (<[n := Some (pos, p)]> c)) pos s mk).
  rewrite (m_plus_guarded cl (fun p t c => k p t (<[n := Some (pos, p)]> c))).
  - reflexivity.
  - intros p c t Hc. now apply Hk.
Qed.

Lemma m_call open n k pos s mk :
  m (Str open ⋅ Group n (Plus (CNot ")")) ⋅ Str ")") k pos s mk =
  match scan_call open s with
  | Some (a, s3) =>
      let p := (pos + String.length open)%nat in
      k (p + a + 1)%nat s3 (<[n := Some (p, (p + a)%nat)]> mk)
  | None => None
  end.
Proof.
  unfold scan_call. rewrite m_seq, m_str.
  destruct (lit open s) as [s1|]; [|reflexivity].
  rewrite m_seq, m_group_plus_det
    by (apply (kguarded_first_lit _ _ ")"%char); reflexivity).
  destruct (span (CNot ")") s1) as [[|a] s2]; [reflexivity|].
  rewrite m_str. destruct (lit ")" s2); reflexivity.
Qed.

Lemma m_call_plain open k pos s mk :
  m (Str open ⋅ Plus (CNot ")") ⋅ Str ")") k pos s mk =
  match scan_call open s with
  | Some (a, s3) => k (pos + String.length open + a + 1)%nat s3 mk
  | None => None
  end.
Proof.
  unfold scan_call. rewrite m_seq, m_str.
  destruct (lit open s) as [s1|]; [|reflexivity].
  rewrite m_seq, m_plus_det
    by (apply (kguarded_first_lit _ _ ")"%char); reflexivity).
  destruct (span (CNot ")") s1) as [[|a] s2]; [reflexivity|].
  rewrite m_str. destruct (lit ")" s2); reflexivity.
Qed.

Lemma m_has n k pos s mk :
  m (has n) k pos s mk =
  match scan_call "trace.has(" s with
  | Some (a, s3) =>
      k (pos + 10 + a + 1)%nat s3
        (<[n := Some ((pos + 10)%nat, (pos + 10 + a)%nat)]> mk)
  | None => None
  end.
Proof. unfold has. now rewrite m_call. Qed.

Lemma m_where n k pos s mk :
  m (where_ n) k pos s mk =
  match scan_call ".where(" s with
  | Some (a, s3) =>
      k (pos + 7 + a + 1)%nat s3
        (<[n := Some (pos, (pos + 7 + a + 1)%nat)]> mk)
  | None => None
  end.
Proof.
  unfold where_.
  change (m (Str ".where(" ⋅ Plus (CNot ")") ⋅ Str ")")
            (fun p t c => k p t (<[n := Some (pos, p)]> c)) pos s mk = 
          match scan_call ".where(" s with
          | Some (a, s3) =>
              k (pos + 7 + a + 1)%nat s3
                (<[n := Some (pos, (pos + 7 + a + 1)%nat)]> mk)
          | None => None
          end).
  now rewrite m_call_plain.
Qed.

Lemma m_and k pos s mk :
  kguarded CSpace k ->
  m and_ k pos s mk =
  match scan_and s with
  | Some (n, s3) => k (pos + n)%nat s3 mk
  | None => None
  end.
Proof.
  intros Hk. unfold and_, scan_and.
  rewrite m_seq, m_plus_det
    by (apply (kguarded_first_lit _ _ "a"%char); reflexivity).
  destruct (span CSpace s) as [[|a] s1]; [reflexivity|].
  rewrite m_seq, m_str. destruct (lit "and" s1) as [s2|]; [|reflexivity].
  rewrite m_plus_det by exact Hk.
  destruct (span CSpace s2) as [[|b] s3]; [reflexivity|].
  cbn [String.length]. f_equal. lia.
Qed.

(** What a scanner accepts starts with the scanner's first character. *)
Lemma scan_call_head c open s r :
  scan_call (String c open) s = Some r -> exists t, s = String c t.
Proof.
  unfold scan_call. destruct s as [|d s]; [discriminate|].
  destruct (lit (String c open) (String d s)) eqn:E; [|discriminate].
  apply lit_head in E as ->. eauto.
Qed.

Lemma scan_and_none c t : is_space c = false -> scan_and (String c t) = None.
Proof. intros Hc. unfold scan_and. cbn. now rewrite Hc. Qed.

(** *** The two-where shape excludes the shapes tried before it *)

Lemma pattern3_excludes (c : string) (mt : Match) :
  re_match pattern3 c = Some mt ->
  re_match pattern1 c = None /\ re_match pattern2 c = None.
Proof.
  unfold re_match at 1. intros H.
  destruct (m pattern3 _ _ _ _) as [res|] eqn:E; [clear H|discriminate].
  unfold pattern3 in E.
  rewrite (m_seq (has 1)), m_has in E.
  destruct (scan_call "trace.has(" c) as [[a s1]|] eqn:E1; [|discriminate].
  rewrite (m_seq (where_ 2)), m_where in E.
  destruct (scan_call ".where(" s1) as [[w s2]|] eqn:E2; [|discriminate].
  rewrite (m_seq and_), m_and in E
    by (apply (kguarded_first_lit _ _ "t"%char); reflexivity).
  destruct (scan_and s2) as [[x s3]|] eqn:E3; [|discriminate].
  rewrite (m_seq (has 3)), m_has in E.
  destruct (scan_call "trace.has(" s3) as [[b s4]|] eqn:E4; [|discriminate].
  clear E.
  destruct (scan_call_head _ _ _ _ E4) as [t3 ->].
  destruct (scan_call_head _ _ _ _ E2) as [t1 ->].
  split; unfold re_match.
  - unfold pattern1.
    rewrite (m_seq (has 1)), m_has, E1, (m_seq (Opt _)), m_opt, m_where, E2.
    rewrite (m_seq and_), m_and, E3
      by (apply (kguarded_first_lit _ _ "n"%char); reflexivity).
    rewrite (m_first_lit _ "n"%char) by (reflexivity || discriminate).
    rewrite (m_seq and_), m_and, scan_and_none
      by (reflexivity || (apply (kguarded_first_lit _ _ "n"%char); reflexivity)).
    reflexivity.
  - unfold pattern2.
    rewrite (m_seq (has 1)), m_has, E1, (m_seq and_), m_and, scan_and_none
      by (reflexivity || (apply (kguarded_first_lit _ _ "t"%char); reflexivity)).
    reflexivity.
Qed.

(** The two-where shape and the bare has-and-has shape never both match. *)
Lemma pattern3_pattern5_disjoint (c : string) (mt : Match) :
  re_match pattern3 c = Some mt -> re_match pattern5 c = None.
Proof.
  unfold re_match at 1. intros H.
  destruct (m pattern3 _ _ _ _) as [res|] eqn:E; [clear H|discriminate].
  unfold pattern3 in E.
  rewrite (m_seq (has 1)), m_has in E.
  destruct (scan_call "trace.has(" c) as [[a s1]|] eqn:E1; [|discriminate].
  rewrite (m_seq (where_ 2)), m_where in E.
  destruct (scan_call ".where(" s1) as [[w s2]|] eqn:E2; [|discriminate].
  clear E. destruct (scan_call_head _ _ _ _ E2) as [t1 ->].
  unfold re_match, pattern5.
  rewrite (m_seq (has 1)), m_has, E1, (m_seq and_), m_and, scan_and_none
    by (reflexivity || (apply (kguarded_first_lit _ _ "t"%char); reflexivity)).
  reflexivity.
Qed.

(** *** A match reads only the text before its end *)

Lemma re_match_prefix (p : regex) (c : string) (mt : Match) :
  re_match p c = Some mt ->
  exists pre rest, c = pre +:+ rest /\ String.length pre = m_end mt
    /\ m_string mt = c /\ bounded (String.length pre) (m_marks mt).
Proof.
  unfold re_match. destruct (m p accept 0%nat c _) as [[e mk]|] eqn:E; [|discriminate].
  intros [= <-]. apply m_inv in E as (u & t & mk' & -> & Hk & Hlen & Hb).
  unfold accept in Hk. cbn [Nat.add] in Hk. injection Hk as <- <-.
  rewrite length_replicate in Hlen.
  exists u, t. split; [reflexivity|]. unfold m_end. cbn [m_marks m_string].
  rewrite list_lookup_insert_eq by lia.
  split; [reflexivity|]. split; [reflexivity|].
  apply bounded_insert; [lia|]. apply Hb, bounded_replicate.
Qed.

Lemma group_prefix (pre rest : string) (g : nat) (mk : marks) (n : nat) :
  bounded (String.length pre) mk ->
  group (mkMatch (pre +:+ rest) g mk) n = group (mkMatch pre g mk) n.
Proof.
  intros Hb. unfold group. cbn [m_groups m_marks m_string].
  destruct (g <? n)%nat; [reflexivity|].
  destruct (mk !! n) as [[[a b]|]|] eqn:E; try reflexivity.
  rewrite slice_app_l by (eapply Hb, E). reflexivity.
Qed.

Lemma emit_at_ext (i : nat) (mt mt' : Match) :
  (forall n, group mt n = group mt' n) -> emit_at i mt = emit_at i mt'.
Proof.
  intros H. unfold emit_at.
  do 10 (destruct i as [|i];
    [cbn [cascade lookup list_lookup];
     unfold emit1, emit2, emit3, emit4a, emit4b, emit5, emit6, emit7,
       emit8, emit9; rewrite !H; reflexivity|]).
  reflexivity.
Qed.

Lemma emit_at_prefix (i : nat) (c : string) (mt : Match) :
  match_at i c = Some mt ->
  exists pre rest, c = pre +:+ rest /\ String.length pre = m_end mt
    /\ emit_at i mt = emit_at i (mkMatch pre (m_groups mt) (m_marks mt)).
Proof.
  unfold match_at. destruct (cascade !! i) as [[p f]|] eqn:Ei; [|discriminate].
  intros Hm. destruct (re_match_prefix _ _ _ Hm) as (pre & rest & -> & He & Hs & Hb).
  exists pre, rest. split; [reflexivity|]. split; [exact He|].
  apply emit_at_ext. intros n. destruct mt as [str g mk]. cbn in *. subst str.
  now apply group_prefix.
Qed.

(** [convert_condition] is the cascade run on the stripped text. *)
Lemma convert_condition_run (s : string) :
  convert_condition s = run cascade (strip s).
Proof. reflexivity. Qed.

Lemma run_first rs c : forall i p f mt,
  rs !! i = Some (p, f) ->
  re_match p c = Some mt ->
  (forall j q g, (j < i)%nat -> rs !! j = Some (q, g) -> re_match q c = None) ->
  run rs c = f mt.
Proof.
  induction rs as [|[q g] rs IH]; intros i p f mt Hi Hm Hlt; [discriminate|].
  destruct i as [|i]; cbn in Hi |- *.
  - injection Hi as -> ->. now rewrite Hm.
  - rewrite (Hlt 0%nat q g) by (lia || reflexivity).
    eapply IH; eauto. intros j q' g' Hj Hq. apply (Hlt (S j) q' g'); [lia|exact Hq].
Qed.

Lemma run_none rs c :
  (forall j q g, rs !! j = Some (q, g) -> re_match q c = None) ->
  run rs c = Ok (manual_review c).
Proof.
  induction rs as [|[q g] rs IH]; intros H; [reflexivity|]. cbn.
  rewrite (H 0%nat q g) by reflexivity.
  apply IH. intros j q' g' Hq. apply (H (S j) q' g'), Hq.
Qed.

Lemma match_at_lt (i : nat) (c : string) (mt : Match) :
  match_at i c = Some mt -> (i < 10)%nat.
Proof.
  unfold match_at. destruct (cascade !! i) as [[p f]|] eqn:E; [|discriminate].
  intros _. apply lookup_lt_Some in E. exact E.
Qed.

Lemma convert_first (s : string) (i : nat) (mt : Match) :
  match_at i (strip s) = Some mt ->
  (forall j, (j < i)%nat -> match_at j (strip s) = None) ->
  convert_condition s = emit_at i mt.
Proof.
  intros Hm Hlt. rewrite convert_condition_run.
  unfold match_at in Hm. unfold emit_at.
  destruct (cascade !! i) as [[p f]|] eqn:E; [|discriminate].
  eapply run_first; eauto.
  intros j q g Hj Hq. specialize (Hlt j Hj). unfold match_at in Hlt.
  now rewrite Hq in Hlt.
Qed.

Lemma convert_none (s : string) :
  (forall i, match_at i (strip s) = None) ->
  convert_condition s = Ok (manual_review (strip s)).
Proof.
  intros H. rewrite convert_condition_run. apply run_none.
  intros j q g Hq. specialize (H j). unfold match_at in H. now rewrite Hq in H.
Qed.

Lemma first_match_below (c : string) (n : nat) :
  (forall j, (j < n)%nat -> match_at j c = None) \/
  (exists k mk, (k < n)%nat /\ match_at k c = Some mk
     /\ forall j, (j < k)%nat -> match_at j c = None).
Proof.
  induction n as [|n [IH|(k & mk & Hk & Hm & Hf)]].
  - left. intros j Hj. lia.
  - destruct (match_at n c) as [mt|] eqn:E.
    + right. exists n, mt. split; [lia|]. split; [exact E|exact IH].
    + left. intros j Hj. destruct (decide (j = n)) as [->|]; [exact E|].
      apply IH. lia.
  - right. exists k, mk. split; [lia|]. split; [exact Hm|exact Hf].
Qed.

(** The lowest recognizer that matches, below any one that does. *)
Lemma first_match_exists (c : string) (i : nat) (mt : Match) :
  match_at i c = Some mt ->
  exists k mk, (k <= i)%nat /\ match_at k c = Some mk
    /\ forall j, (j < k)%nat -> match_at j c = None.
Proof.
  intros Hm. destruct (first_match_below c (S i)) as [H|(k & mk & Hk & Hmk & Hf)].
  - rewrite H in Hm by lia. discriminate.
  - exists k, mk. split; [lia|]. split; [exact Hmk|exact Hf].
Qed.

(** No recognizer matches text that does not start with [t]. *)
Lemma no_match_head (i : nat) (c : ascii) (t : string) :
  c <> "t"%char -> match_at i (String c t) = None.
Proof.
  intros Hc. unfold match_at.
  do 10 (destruct i as [|i];
    [apply (re_match_first_lit _ "t"%char); [reflexivity|exact Hc]|]).
  reflexivity.
Qed.

Lemma match_at_ge (i : nat) (c : string) :
  (10 <= i)%nat -> match_at i c = None.
Proof.
  intros Hi. destruct (match_at i c) eqn:E; [|reflexivity].
  apply match_at_lt in E. lia.
Qed.

(** Either the fallback is taken or the first matching recognizer emits. *)
Lemma convert_cases (s : string) :
  ((forall i, match_at i (strip s) = None)
   /\ convert_condition s = Ok (manual_review (strip s)))
  \/ (exists k mt out, match_at k (strip s) = Some mt
        /\ (forall j, (j < k)%nat -> match_at j (strip s) = None)
        /\ emit_at k mt = Ok out /\ convert_condition s = Ok out).
Proof.
  destruct (first_match_below (strip s) 10) as [H|(k & mt & Hk & Hm & Hf)].
  - left. assert (forall i, match_at i (strip s) = None) as Hall.
    { intros i. destruct (Nat.lt_ge_cases i 10); [auto|now apply match_at_ge]. }
    split; [exact Hall|now apply convert_none].
  - right. destruct (cascade_emits k _ mt Hm) as [out Hout].
    exists k, mt, out. split; [exact Hm|]. split; [exact Hf|].
    split; [exact Hout|]. rewrite <- Hout. now apply convert_first.
Qed.

Lemma startswith_head (c : ascii) (p s : string) :
  startswith (String c p) s = true -> exists t, s = String c t.
Proof.
  unfold startswith. destruct s as [|d s]; cbn; [discriminate|].
  destruct (Ascii.eqb_spec c d) as [->|]; [eauto|discriminate].
Qed.

(** What every recognizer emits opens with [when {] or with [# TODO]. *)
Lemma emit_at_head (i : nat) (mt : Match) (out : string) :
  emit_at i mt = Ok out ->
  startswith "when {" out || startswith "# TODO" out = true.
Proof.
  unfold emit_at.
  do 10 (destruct i as [|i];
    [cbn [cascade lookup list_lookup];
     unfold emit1, emit2, emit3, emit4a, emit4b, emit5, emit6, emit7,
       emit8, emit9;
     repeat match goal with
     | |- context [group ?m ?n] => destruct (group m n); cbn [bind]
     end; try discriminate; intros [= <-]; reflexivity|]).
  cbn. discriminate.
Qed.

Lemma convert_head (s out : string) :
  convert_condition s = Ok out ->
  startswith "when {" out || startswith "# TODO" out = true.
Proof.
  destruct (convert_cases s) as [[_ H]|(k & mt & o & _ & _ & He & H)];
    rewrite H; intros [= <-].
  - reflexivity.
  - eapply emit_at_head, He.
Qed.

(** Text whose first character is neither blank nor [t] takes the
    fallback branch. *)
Lemma convert_foreign (c : ascii) (t : string) :
  is_space c = false -> c <> "t"%char ->
  (forall i, match_at i (strip (String c t)) = None)
  /\ convert_condition (String c t) = Ok (manual_review (strip (String c t))).
Proof.
  intros Hs Hc.
  assert (forall i, match_at i (strip (String c t)) = None) as Hall.
  { intros i. rewrite strip_nonspace by exact Hs. now apply no_match_head. }
  split; [exact Hall|now apply convert_none].
Qed.

End ConvFacts.

(* ===================================================================== *)
(** ** Properties of the batch loop *)
(* ===================================================================== *)

Module BatchFacts.
Import Py Re Conv Batch ConvFacts.

Lemma same_fields_refl items : same_fields items items.
Proof. induction items; constructor; auto. Qed.

Lemma same_fields_trans a b c :
  same_fields a b -> same_fields b c -> same_fields a c.
Proof.
  intros Hab. revert c. induction Hab as [|x y a b [Hk Hv] _ IH]; intros c Hbc.
  - inversion Hbc. constructor.
  - inversion Hbc as [|y' z b' c' [Hk' Hv'] Hbc']; subst.
    constructor; [|now apply IH].
    split; [congruence|]. intros Hx. rewrite Hv by exact Hx.
    apply Hv'. congruence.
Qed.

Lemma same_fields_get k items items' :
  same_fields items items' -> k <> "condition" ->
  dict_get k items' = dict_get k items.
Proof.
  intros H Hk. induction H as [|[k1 v1] [k2 v2] a b [Hk' Hv] _ IH]; [reflexivity|].
  cbn in *. subst k2. destruct (String.eqb_spec k1 k) as [->|]; [|exact IH].
  now rewrite Hv.
Qed.

Lemma dict_set_same items v old :
  dict_get "condition" items = Some old ->
  same_fields items (dict_set "condition" v items).
Proof.
  induction items as [|[k v0] items IH]; [discriminate|]. cbn.
  destruct (String.eqb_spec k "condition") as [->|Hk].
  - intros _. constructor; [|apply same_fields_refl]. split; [reflexivity|easy].
  - intros H. constructor; [split; auto|]. now apply IH.
Qed.

Lemma dict_get_set items v :
  dict_get "condition" (dict_set "condition" v items) = Some v.
Proof.
  induction items as [|[k v0] items IH]; [reflexivity|]. cbn.
  destruct (String.eqb k "condition") eqn:E; cbn; now rewrite E.
Qed.

Lemma frame_obj_refl o : frame_obj o o.
Proof. destruct o; cbn; [apply same_fields_refl|reflexivity]. Qed.

Lemma frame_refl h : frame h h.
Proof. intros l. destruct (h !! l); [apply frame_obj_refl|exact I]. Qed.

Lemma frame_trans h1 h2 h3 : frame h1 h2 -> frame h2 h3 -> frame h1 h3.
Proof.
  intros H12 H23 l. specialize (H12 l). specialize (H23 l).
  destruct (h1 !! l) as [o1|], (h2 !! l) as [o2|], (h3 !! l) as [o3|];
    try easy.
  destruct o1, o2, o3; cbn in *; try easy; [|congruence].
  eapply same_fields_trans; eauto.
Qed.

(** What one iteration returns, when it stores a new condition. *)
Lemma step_inv rule st st' :
  step rule st = Ok st' ->
  st' = st \/
  exists l items old new,
    rule = VRef l /\ heap st !! l = Some (ODict items)
    /\ dict_get "condition" items = Some old
    /\ heap st' = <[l := ODict (dict_set "condition" (VStr new) items)]> (heap st)
    /\ converted_count st' = S (converted_count st).
Proof.
  unfold step. destruct (has_condition (heap st) rule) as [[|]|] eqn:Eh;
    cbn [bind]; [|intros [= <-]; now left|discriminate].
  unfold get_condition, set_condition.
  destruct rule as [| | | | |l]; try discriminate.
  destruct (heap st !! l) as [[items|vs]|] eqn:El; try discriminate.
  destruct (dict_get "condition" items) as [old|] eqn:Ec; [|discriminate].
  cbn [bind]. destruct (convert_value old) as [new|]; [|discriminate].
  cbn [bind]. cbv beta iota zeta.
  destruct (contains " not in [" new || contains " in [" new);
    cbn [bind]; intros [= <-]; right; cbn [heap converted_count];
    eexists l, items, old, _; repeat split; eauto.
Qed.

Lemma step_frame rule st st' :
  step rule st = Ok st' ->
  frame (heap st) (heap st')
  /\ (forall l, VRef l <> rule -> heap st' !! l = heap st !! l).
Proof.
  intros H. apply step_inv in H as [->|(l & items & old & new & -> & Hl & Hc & Hh & _)].
  - split; [apply frame_refl|reflexivity].
  - rewrite Hh. split.
    + intros l0. destruct (decide (l0 = l)) as [->|Hne].
      * rewrite Hl, lookup_insert_eq. cbn. eapply dict_set_same, Hc.
      * rewrite lookup_insert_ne by congruence.
        destruct (heap st !! l0); [apply frame_obj_refl|exact I].
    + intros l0 Hne. apply lookup_insert_ne. congruence.
Qed.

Lemma loop_frame rules : forall st st',
  loop rules st = Ok st' ->
  frame (heap st) (heap st')
  /\ (forall l, VRef l ∉ rules -> heap st' !! l = heap st !! l)
  /\ (converted_count st' <= converted_count st + length rules)%nat.
Proof.
  induction rules as [|rule rules IH]; intros st st'; cbn [loop].
  - intros [= <-]. split; [apply frame_refl|]. split; [reflexivity|lia].
  - destruct (step rule st) as [st1|] eqn:E1; [|discriminate]. cbn [bind].
    intros H. apply IH in H as (Hf & Hu & Hn).
    destruct (step_frame _ _ _ E1) as [Hf1 Hu1].
    split; [eapply frame_trans; eauto|]. split.
    + intros l Hl. apply not_elem_of_cons in Hl as [Hne Hl].
      rewrite Hu by exact Hl. apply Hu1. congruence.
    + apply step_inv in E1 as [->|(? & ? & ? & ? & _ & _ & _ & _ & Hc)];
        cbn [length]; lia.
Qed.

(** On a rule record one iteration returns, and the records stay records. *)
Lemma step_ok rule st :
  rule_ok (heap st) rule ->
  exists st', step rule st = Ok st'
    /\ forall v, rule_ok (heap st) v -> rule_ok (heap st') v.
Proof.
  intros (l & items & -> & Hl & Hstr).
  unfold step, has_condition, get_condition, set_condition. rewrite Hl.
  destruct (dict_get "condition" items) as [old|] eqn:Ec; cbn [bind];
    [|eexists; split; [reflexivity|auto]].
  destruct (Hstr old eq_refl) as [s ->]. cbn [convert_value].
  assert (exists out, convert_condition s = Ok out) as [out ->].
  { destruct (convert_cases s) as [[_ H]|(k & mt & out & _ & _ & _ & H)]; eauto. }
  cbn [bind]. cbv beta iota zeta.
  destruct (contains " not in [" out || contains " in [" out);
    cbn [bind]; (eexists; split; [reflexivity|]); cbn [heap];
    intros v (l' & items' & -> & Hl' & Hstr');
    (destruct (decide (l' = l)) as [->|Hne];
     [eexists l, _; split; [reflexivity|]; split; [apply lookup_insert_eq|];
      intros c; rewrite dict_get_set; intros [= <-]; eauto
     |exists l', items'; split; [reflexivity|]; split;
      [rewrite lookup_insert_ne by congruence; exact Hl'|exact Hstr']]).
Qed.

Lemma loop_ok rules : forall st,
  Forall (rule_ok (heap st)) rules -> exists st', loop rules st = Ok st'.
Proof.
  induction rules as [|rule rules IH]; intros st H; cbn [loop]; [eauto|].
  inversion H as [|? ? Hr Hrs]; subst.
  destruct (step_ok _ _ Hr) as (st1 & -> & Hkeep). cbn [bind].
  apply IH. eapply Forall_impl; eauto.
Qed.

Lemma same_fields_keys items items' :
  same_fields items items' ->
  map (fun kv => VStr (fst kv)) items' = map (fun kv => VStr (fst kv)) items.
Proof.
  intros H. induction H as [|x y a b [Hk _] _ IH]; [reflexivity|].
  cbn. now rewrite IH, Hk.
Qed.

(** The loop walks the same records before and after the conversion. *)
Lemma get_rules_frame h h' data rules :
  frame h h' -> get_rules h data = Ok rules -> get_rules h' data = Ok rules.
Proof.
  intros Hf. unfold get_rules. destruct data as [| | | | |d]; try discriminate.
  pose proof (Hf d) as Hd.
  destruct (h !! d) as [[items|vs]|]; try discriminate.
  destruct (h' !! d) as [[items'|vs']|]; try easy. cbn in Hd.
  rewrite (same_fields_get "rules" _ _ Hd) by discriminate.
  destruct (dict_get "rules" items) as [x|]; [|easy].
  unfold iterate. destruct x as [| | | | |lr]; try easy.
  pose proof (Hf lr) as Hr.
  destruct (h !! lr) as [[it|vs]|]; try discriminate;
    destruct (h' !! lr) as [[it'|vs']|]; try easy; cbn in Hr.
  - now rewrite (same_fields_keys _ _ Hr).
  - now subst.
Qed.

End BatchFacts.

(* ===================================================================== *)
(** ** Properties of the lexer and of the parser's throw sites *)
(* ===================================================================== *)

Module ParserFacts.
Import Py Parser FluoDslParser Scoping.








End ParserFacts.

(* ===================================================================== *)
(** ** The converter's contract *)
(* ===================================================================== *)

Import Py Re Conv Batch Parser FluoDslParser Shape Scoping ReFacts ConvFacts BatchFacts
  ParserFacts.

(** C1: when two recognizers of the cascade match the stripped input,
    [convert_condition] returns what the lowest-numbered matching
    recognizer emits; and when the two-where recognizer (index 2, spec
    shape 3) is one of them, it is that lowest one, whatever later shape
    (such as the bare has-and-has shape) matches as well. *)
Theorem first_match_wins (s : string) (i j : nat) :
  (i < j)%nat ->
  is_Some (match_at i (strip s)) ->
  is_Some (match_at j (strip s)) ->
  exists k mt out,
    (k <= i)%nat
    /\ match_at k (strip s) = Some mt
    /\ (forall k', (k' < k)%nat -> match_at k' (strip s) = None)
    /\ emit_at k mt = Ok out
    /\ convert_condition s = Ok out
    /\ (i = 2%nat -> k = 2%nat).
Proof.
  intros Hij [mi Hi] _.
  destruct (first_match_exists _ _ _ Hi) as (k & mt & Hk & Hm & Hf).
  destruct (cascade_emits _ _ _ Hm) as [out Hout].
  exists k, mt, out. split; [exact Hk|]. split; [exact Hm|]. split; [exact Hf|].
  split; [exact Hout|]. split; [rewrite <- Hout; now apply convert_first|].
  intros ->. destruct (pattern3_excludes _ _ Hi) as [H1 H2].
  destruct k as [|[|k]]; [| |lia].
  - unfold match_at in Hm. cbn [cascade lookup list_lookup] in Hm. congruence.
  - unfold match_at in Hm. cbn [cascade lookup list_lookup] in Hm. congruence.
Qed.

Lemma first_match_wins_witness :
  exists k mt out,
    (k <= 2)%nat
    /\ match_at k (strip "trace.has(A).where(x>1) and trace.has(B).where(y<2)")
       = Some mt
    /\ (forall k', (k' < k)%nat ->
        match_at k' (strip "trace.has(A).where(x>1) and trace.has(B).where(y<2)")
        = None)
    /\ emit_at k mt = Ok out
    /\ convert_condition "trace.has(A).where(x>1) and trace.has(B).where(y<2)"
       = Ok out
    /\ (2%nat = 2%nat -> k = 2%nat).
Proof.
  apply (first_match_wins
           "trace.has(A).where(x>1) and trace.has(B).where(y<2)" 2 8).
  - lia.
  - eexists. vm_compute. reflexivity.
  - eexists. vm_compute. reflexivity.
Defined.

(** C2: when the text [convert_condition] produced for a rule contains
    [ in \[] or [ not in \[], the loop stores that text behind the
    [# TODO: DSL doesn't support 'in' operator] line, whichever recognizer
    produced it. *)
Theorem in_operator_marked (st : state) (l : loc)
    (items : list (string * val)) (s new : string) :
  heap st !! l = Some (ODict items) ->
  dict_get "condition" items = Some (VStr s) ->
  convert_condition s = Ok new ->
  contains " in [" new || contains " not in [" new = true ->
  exists st' items',
    step (VRef l) st = Ok st'
    /\ heap st' !! l = Some (ODict items')
    /\ dict_get "condition" items' = Some (VStr (in_marker +:+ new))
    /\ startswith "# TODO" (in_marker +:+ new) = true.
Proof.
  intros Hl Hc Hnew Hin.
  assert (contains " not in [" new || contains " in [" new = true) as Hin'.
  { now rewrite orb_comm. }
  unfold step, has_condition, get_condition, set_condition, convert_value.
  rewrite Hl, Hc. cbn [bind]. rewrite Hnew. cbn [bind]. rewrite Hin'.
  cbv beta iota zeta.
  eexists _, _. split; [reflexivity|]. cbn [heap].
  split; [apply lookup_insert_eq|]. split; [|reflexivity].
  clear -Hc. induction items as [|[k v] items IH]; [discriminate|].
  cbn in Hc |- *. destruct (String.eqb k "condition") eqn:E.
  - cbn. now rewrite E.
  - cbn. rewrite E. auto.
Qed.

Lemma in_operator_marked_witness :
  exists st' items',
    step (VRef 2%nat)
      (mkState (single_rule "trace.has(A).where(k in [1,2]) and not trace.has(B)")
         0 0) = Ok st'
    /\ heap st' !! 2%nat = Some (ODict items')
    /\ dict_get "condition" items'
       = Some (VStr (in_marker +:+ "when { A.where(k in [1,2]) } never { B }"))
    /\ startswith "# TODO"
         (in_marker +:+ "when { A.where(k in [1,2]) } never { B }") = true.
Proof.
  apply (in_operator_marked _ 2%nat
           [("condition", VStr "trace.has(A).where(k in [1,2]) and not trace.has(B)")]
           "trace.has(A).where(k in [1,2]) and not trace.has(B)").
  - reflexivity.
  - reflexivity.
  - vm_compute. reflexivity.
  - vm_compute. reflexivity.
Defined.

(** C3 (what the code does): a document with a single rule whose converted
    text carries both a TODO marker and an [ in \[] construct comes back
    with one converted rule and a needs-review count of two. *)
Theorem needs_review_counted_twice :
  counters (convert_yaml_file (single_rule "trace.has(A).where(k in [1])")
              (VRef 0%nat))
  = Some (1%nat, 2%nat).
Proof. vm_compute. reflexivity. Qed.



(** C5: [trace.has(A).where(x==1) and not trace.has(B)] converts to
    [when { A.where(x==1) } never { B }], and a document holding that one
    rule comes back with one converted rule and none needing review. *)
Theorem convert_where_and_not :
  convert_condition "trace.has(A).where(x==1) and not trace.has(B)"
  = Ok "when { A.where(x==1) } never { B }"
  /\ counters (convert_yaml_file
       (single_rule "trace.has(A).where(x==1) and not trace.has(B)") (VRef 0%nat))
     = Some (1%nat, 0%nat).
Proof. split; vm_compute; reflexivity. Qed.

(** C6: [trace.count(X) > 5] converts to the TODO line about the missing
    always/never clause, a newline, and [when { count(X) > 5 }]; a document
    holding that one rule comes back with one rule needing review. *)
Theorem convert_count_threshold :
  convert_condition "trace.count(X) > 5"
  = Ok ("# TODO: Add always/never clause (e.g., always { alert })" +:+ nl
        +:+ "when { count(X) > 5 }")
  /\ counters (convert_yaml_file (single_rule "trace.count(X) > 5") (VRef 0%nat))
     = Some (1%nat, 1%nat).
Proof. split; vm_compute; reflexivity. Qed.

(** C7: whatever [convert_condition] returns opens with [when {] or with
    [# TODO]; no recognizer matches it, and converting it again takes the
    fallback branch.  The same holds for every text that opens with
    [when]. *)
Theorem convert_not_self_applicable (s : string) :
  (exists out, convert_condition s = Ok out
     /\ startswith "when {" out || startswith "# TODO" out = true
     /\ (forall i, match_at i (strip out) = None)
     /\ convert_condition out = Ok (manual_review (strip out)))
  /\ (forall i, match_at i (strip ("when" +:+ s)) = None)
  /\ convert_condition ("when" +:+ s) = Ok (manual_review (strip ("when" +:+ s))).
Proof.
  split; [|apply (convert_foreign "w"%char); [reflexivity|discriminate]].
  assert (exists out, convert_condition s = Ok out) as [out Hout].
  { destruct (convert_cases s) as [[_ H]|(k & mt & out & _ & _ & _ & H)]; eauto. }
  exists out. split; [exact Hout|].
  pose proof (convert_head s out Hout) as Hh. split; [exact Hh|].
  apply orb_true_iff in Hh as [Hh|Hh]; apply startswith_head in Hh as [t ->];
    apply convert_foreign; (reflexivity || discriminate).
Qed.

(** C8: whenever the batch converter returns, the store it hands to the
    dumper holds the same objects as the loaded one: every list (the list
    of records among them) is unchanged, every dictionary keeps its keys in
    order and its value under every key but [condition], only the records
    of the rule list are touched at all, and the rule list is the same
    sequence of records afterwards.  On a document
    [{rules: [record, ...]}] it does return. *)
Theorem only_condition_changes (h : gmap loc object) (data : val) :
  (well_shaped h data -> exists h' c, convert_yaml_file h data = Ok (h', c))
  /\ (forall h' c,
        convert_yaml_file h data = Ok (h', c) ->
        exists rules,
          get_rules h data = Ok rules
          /\ frame h h'
          /\ (forall l, VRef l ∉ rules -> h' !! l = h !! l)
          /\ get_rules h' data = Ok rules).
Proof.
  split.
  - intros (rules & Hr & Hok).
    destruct (loop_ok rules (mkState h 0 0) Hok) as [st Hst].
    exists (heap st), (converted_count st, needs_review_count st).
    unfold convert_yaml_file. rewrite Hr. cbn [bind]. rewrite Hst. reflexivity.
  - intros h' c. unfold convert_yaml_file.
    destruct (get_rules h data) as [rules|] eqn:Hr; [|discriminate]. cbn [bind].
    destruct (loop rules (mkState h 0 0)) as [st|] eqn:Hst; [|discriminate].
    cbn [bind]. intros [= <- <-].
    destruct (loop_frame _ _ _ Hst) as (Hf & Hu & _). cbn [heap] in Hf, Hu.
    exists rules. split; [reflexivity|]. split; [exact Hf|].
    split; [exact Hu|]. eapply get_rules_frame; eauto.
Qed.

Lemma only_condition_changes_witness :
  exists h' c rules,
    convert_yaml_file shared_doc (VRef 0%nat) = Ok (h', c)
    /\ get_rules shared_doc (VRef 0%nat) = Ok rules
    /\ frame shared_doc h'
    /\ (forall l, VRef l ∉ rules -> h' !! l = shared_doc !! l)
    /\ get_rules h' (VRef 0%nat) = Ok rules.
Proof.
  destruct (only_condition_changes shared_doc (VRef 0%nat)) as [Hret Hframe].
  destruct Hret as (h' & c & Hrun).
  { exists [VRef 4%nat; VRef 2%nat; VRef 3%nat; VRef 2%nat].
    split; [reflexivity|].
    repeat constructor.
    - eexists 4%nat, _. split; [reflexivity|]. split; [reflexivity|].
      intros v [= <-]. eauto.
    - eexists 2%nat, _. split; [reflexivity|]. split; [reflexivity|].
      intros v [= <-]. eauto.
    - eexists 3%nat, _. split; [reflexivity|]. split; [reflexivity|].
      intros v [=].
    - eexists 2%nat, _. split; [reflexivity|]. split; [reflexivity|].
      intros v [= <-]. eauto. }
  destruct (Hframe h' c Hrun) as (rules & H).
  exists h', c, rules. split; [exact Hrun|exact H].
Defined.



(** C10: the recognizers match a prefix of the stripped input and the
    output is built from that prefix alone: whenever some recognizer
    matches, the result is what the winning recognizer emits for the text
    it matched, whatever follows that text.  So
    [trace.has(A) and trace.has(B) and not trace.has(C)], followed by
    anything, converts to [when { A } always { B }]. *)
Theorem trailing_text_discarded :
  (forall (s : string) (i : nat),
     is_Some (match_at i (strip s)) ->
     exists k mt pre rest out,
       (k <= i)%nat
       /\ match_at k (strip s) = Some mt
       /\ strip s = pre +:+ rest
       /\ String.length pre = m_end mt
       /\ emit_at k (mkMatch pre (m_groups mt) (m_marks mt)) = Ok out
       /\ convert_condition s = Ok out)
  /\ (forall t,
       convert_condition
         ("trace.has(A) and trace.has(B) and not trace.has(C)" +:+ t)
       = Ok "when { A } always { B }").
Proof.
  split.
  - intros s i [mi Hi].
    destruct (first_match_exists _ _ _ Hi) as (k & mt & Hk & Hm & Hf).
    destruct (emit_at_prefix _ _ _ Hm) as (pre & rest & Hc & He & Hemit).
    destruct (cascade_emits _ _ _ Hm) as [out Hout].
    exists k, mt, pre, rest, out.
    split; [exact Hk|]. split; [exact Hm|]. split; [exact Hc|].
    split; [exact He|]. split; [now rewrite <- Hemit|].
    rewrite <- Hout. now apply convert_first.
  - intros t. unfold convert_condition.
    change ("trace.has(A) and trace.has(B) and not trace.has(C)" +:+ t)
      with (String "t" ("race.has(A) and trace.has(B) and not trace.has(C"
                        +:+ String ")" t)).
    rewrite strip_nonspace, rstrip_app_nonspace by reflexivity.
    generalize (rstrip t). intros r. reflexivity.
Qed.

Lemma trailing_text_discarded_witness :
  exists k mt pre rest out,
    (k <= 5)%nat
    /\ match_at k (strip "trace.has(A) and trace.has(B) and not trace.has(C)")
       = Some mt
    /\ strip "trace.has(A) and trace.has(B) and not trace.has(C)" = pre +:+ rest
    /\ String.length pre = m_end mt
    /\ emit_at k (mkMatch pre (m_groups mt) (m_marks mt)) = Ok out
    /\ convert_condition "trace.has(A) and trace.has(B) and not trace.has(C)"
       = Ok out.
Proof.
  apply (proj1 trailing_text_discarded
           "trace.has(A) and trace.has(B) and not trace.has(C)" 5%nat).
  eexists. vm_compute. reflexivity.
Defined.

(* ===================================================================== *)
(** ** Recognizers over texts given piece by piece *)
(* ===================================================================== *)

Module TextFacts.
Import Py Re Conv Shape Text ReFacts ConvFacts.

Lemma lit_same (p t : string) : lit p (p +:+ t) = Some t.
Proof.
  induction p as [|c p IH]; [reflexivity|].
  rewrite app_cons. cbn. now rewrite Ascii.eqb_refl.
Qed.

Lemma span_app cl u t :
  all_in cl u = true -> stops cl t = true ->
  span cl (u +:+ t) = (String.length u, t).
Proof.
  intros Hu Ht. induction u as [|c u IH].
  - rewrite app_nil_l. destruct t as [|d t]; [reflexivity|].
    cbn in *. now destruct (in_class cl d).
  - rewrite app_cons. cbn in *. apply andb_true_iff in Hu as [Hc Hu].
    rewrite Hc, IH by exact Hu. reflexivity.
Qed.

Lemma nonempty_length s : nonempty s = true -> exists n, String.length s = S n.
Proof. destruct s; [discriminate|]. cbn. eauto. Qed.

Lemma scan_call_app open a t :
  is_name a = true ->
  scan_call open (open +:+ a +:+ ")" +:+ t) = Some (String.length a, t).
Proof.
  unfold is_name. intros H. apply andb_true_iff in H as [Hn Ha].
  unfold scan_call. rewrite lit_same, span_app by (exact Ha || reflexivity).
  destruct (nonempty_length _ Hn) as [n ->]. now rewrite lit_same.
Qed.

Lemma scan_call_end open a :
  is_name a = true ->
  scan_call open (open +:+ a +:+ ")") = Some (String.length a, "").
Proof. intros H. apply (scan_call_app open a "" H). Qed.

Lemma scan_and_app w1 w2 t :
  is_blank w1 = true -> is_blank w2 = true -> stops CSpace t = true ->
  scan_and (w1 +:+ "and" +:+ w2 +:+ t)
  = Some ((String.length w1 + 3 + String.length w2)%nat, t).
Proof.
  unfold is_blank. intros H1 H2 Ht.
  apply andb_true_iff in H1 as [Hn1 Hw1]. apply andb_true_iff in H2 as [Hn2 Hw2].
  unfold scan_and. rewrite span_app by (exact Hw1 || reflexivity).
  destruct (nonempty_length _ Hn1) as [n1 E1]. rewrite E1.
  rewrite lit_same, span_app by assumption.
  destruct (nonempty_length _ Hn2) as [n2 E2]. rewrite E2. reflexivity.
Qed.

Lemma hd_app_lit c p t : hd (String c p +:+ t) = Some c.
Proof. reflexivity. Qed.

Lemma hd_blank_ne w t c0 :
  is_blank w = true -> is_space c0 = false -> hd (w +:+ t) <> Some c0.
Proof.
  unfold is_blank. destruct w as [|c w]; [discriminate|]. cbn.
  intros H Hc0. apply andb_true_iff in H as [H _].
  rewrite app_cons. cbn. intros [= ->]. congruence.
Qed.

(** A pattern that opens with a literal fails on text that does not. *)
Lemma m_first_lit_hd r c0 k pos s mk :
  first_lit r = Some c0 -> hd s <> Some c0 -> m r k pos s mk = None.
Proof.
  intros Hf Hs. destruct s as [|c s].
  - revert k pos mk.
    induction r as [l|cl|cl|r IH|n r IH|r1 IH1 r2 IH2|r IH];
      intros k pos mk; cbn in Hf; try discriminate.
    + destruct l; [discriminate|reflexivity].
    + cbn [m]. now apply IH.
    + cbn [m]. now apply IH1.
  - apply (m_first_lit r c0); [exact Hf|]. intros ->. now apply Hs.
Qed.

Lemma m_plus_stop cl k pos s mk :
  stops cl s = true -> m (Plus cl) k pos s mk = None.
Proof.
  destruct s as [|c s]; [reflexivity|]. cbn.
  now destruct (in_class cl c).
Qed.

Lemma m_and_stop k pos s mk : stops CSpace s = true -> m and_ k pos s mk = None.
Proof. intros H. unfold and_. rewrite m_seq. now apply m_plus_stop. Qed.

Lemma m_count n k pos s mk :
  m (count n) k pos s mk =
  match scan_call "trace.count(" s with
  | Some (a, s3) =>
      k (pos + 12 + a + 1)%nat s3
        (<[n := Some ((pos + 12)%nat, (pos + 12 + a)%nat)]> mk)
  | None => None
  end.
Proof. unfold count. now rewrite m_call. Qed.

(** *** Reading groups out of a match whose marks are known *)

Lemma group_mark mt n a b :
  (n <= m_groups mt)%nat ->
  m_marks mt !! n = Some (Some (a, b)) ->
  group mt n = Ok (Some (slice (m_string mt) a b)).
Proof.
  intros Hn Hm. unfold group.
  destruct (Nat.ltb_spec (m_groups mt) n); [lia|]. now rewrite Hm.
Qed.

Lemma group_unset mt n :
  (n <= m_groups mt)%nat ->
  m_marks mt !! n = Some None ->
  group mt n = Ok None.
Proof.
  intros Hn Hm. unfold group.
  destruct (Nat.ltb_spec (m_groups mt) n); [lia|]. now rewrite Hm.
Qed.

Lemma substring_all v : substring 0 (String.length v) v = v.
Proof. induction v as [|c v IH]; [reflexivity|]. cbn. now rewrite IH. Qed.

Lemma substring_skip u t : forall n,
  substring (String.length u) n (u +:+ t) = substring 0 n t.
Proof.
  induction u as [|c u IH]; intros n; [reflexivity|].
  rewrite app_cons. cbn. apply IH.
Qed.

(** The piece [v] of [u ++ v ++ w], cut out by its offsets. *)
Lemma slice_mid c u v w a b :
  c = u +:+ v +:+ w ->
  a = String.length u -> b = (a + String.length v)%nat ->
  slice c a b = v.
Proof.
  intros -> -> ->. unfold slice.
  replace (String.length u + String.length v - String.length u)%nat
    with (String.length v) by lia.
  rewrite substring_skip.
  rewrite (substring_app_l v w 0 (String.length v)) by lia.
  apply substring_all.
Qed.

(** *** Texts that [strip] leaves alone *)

Lemma strip_fixed c u d :
  is_space c = false -> is_space d = false ->
  strip (String c (u +:+ String d "")) = String c (u +:+ String d "").
Proof.
  intros Hc Hd. rewrite strip_nonspace by exact Hc.
  now rewrite rstrip_app_nonspace.
Qed.

Lemma strip_wrap u c d :
  hd u = Some c -> is_space c = false -> is_space d = false ->
  strip (u +:+ String d "") = u +:+ String d "".
Proof.
  destruct u as [|c' u]; [discriminate|]. intros [= ->] Hc Hd.
  rewrite app_cons. now apply strip_fixed.
Qed.

End TextFacts.

Module ShapeFacts.
Import Py Re Conv Shape Text ReFacts ConvFacts TextFacts.

Lemma lit_blank_none c0 p w t :
  is_blank w = true -> is_space c0 = false -> lit (String c0 p) (w +:+ t) = None.
Proof.
  unfold is_blank. destruct w as [|c w]; [discriminate|]. cbn [nonempty all_in].
  intros H Hc0. apply andb_true_iff in H as [_ H]. apply andb_true_iff in H as [H _].
  rewrite app_cons. cbn. destruct (Ascii.eqb_spec c0 c) as [->|]; [|reflexivity].
  cbn in H. congruence.
Qed.

Lemma scan_call_none open s : lit open s = None -> scan_call open s = None.
Proof. intros H. unfold scan_call. now rewrite H. Qed.

Lemma scan_and_stop s : stops CSpace s = true -> scan_and s = None.
Proof.
  unfold scan_and. destruct s as [|c s]; [reflexivity|]. cbn.
  now destruct (is_space c).
Qed.

Lemma scan_and_other w t :
  is_blank w = true -> stops CSpace t = true -> lit "and" t = None ->
  scan_and (w +:+ t) = None.
Proof.
  unfold is_blank. intros H Ht Hl. apply andb_true_iff in H as [Hn Hw].
  unfold scan_and. rewrite span_app by assumption.
  destruct (nonempty_length _ Hn) as [n ->]. now rewrite Hl.
Qed.

Lemma m_str_same l k pos t mk :
  m (Str l) k pos (l +:+ t) mk = k (pos + String.length l)%nat t mk.
Proof. now rewrite m_str, lit_same. Qed.

Lemma m_str_none l k pos s mk : lit l s = None -> m (Str l) k pos s mk = None.
Proof. intros H. now rewrite m_str, H. Qed.

Lemma m_plus_app cl k pos u t mk :
  kguarded cl k -> nonempty u = true -> all_in cl u = true -> stops cl t = true ->
  m (Plus cl) k pos (u +:+ t) mk = k (pos + String.length u)%nat t mk.
Proof.
  intros Hk Hn Hu Ht. rewrite m_plus_det, span_app by assumption.
  destruct (nonempty_length _ Hn) as [n ->]. reflexivity.
Qed.

Lemma m_blank k pos w t mk :
  kguarded CSpace k -> is_blank w = true -> stops CSpace t = true ->
  m (Plus CSpace) k pos (w +:+ t) mk = k (pos + String.length w)%nat t mk.
Proof.
  unfold is_blank. intros Hk Hw Ht. apply andb_true_iff in Hw as [Hn Hw].
  now apply m_plus_app.
Qed.

(** Side conditions of the rewriting steps. *)
Ltac lit_none :=
  first [ reflexivity | apply lit_blank_none; [assumption|reflexivity] ].

Ltac kguard :=
  first [ assumption | eapply kguarded_first_lit; reflexivity ].

(** One step of a recognizer over a text given piece by piece. *)
Ltac mstep :=
  match goal with
  | |- context [m (?a ⋅ ?b) ?k ?p ?s ?mk] => rewrite (m_seq a b k p s mk)
  | |- context [m (Opt ?r) ?k ?p ?s ?mk] => rewrite (m_opt r k p s mk)
  | |- context [m (has ?n) ?k ?p ?s ?mk] =>
      rewrite (m_has n k p s mk);
      first [ rewrite scan_call_app by assumption
            | rewrite scan_call_end by assumption
            | rewrite scan_call_none by lit_none ]
  | |- context [m (count ?n) ?k ?p ?s ?mk] =>
      rewrite (m_count n k p s mk);
      first [ rewrite scan_call_app by assumption
            | rewrite scan_call_end by assumption
            | rewrite scan_call_none by lit_none ]
  | |- context [m (where_ ?n) ?k ?p ?s ?mk] =>
      rewrite (m_where n k p s mk);
      first [ rewrite scan_call_app by assumption
            | rewrite scan_call_end by assumption
            | rewrite scan_call_none by lit_none ]
  | |- context [m and_ ?k ?p ?s ?mk] =>
      rewrite (m_and k p s mk) by kguard;
      first [ rewrite scan_and_app by (assumption || reflexivity)
            | rewrite scan_and_stop by reflexivity
            | rewrite scan_and_other by (assumption || reflexivity) ]
  | |- context [m (Str ?l) ?k ?p ?s ?mk] =>
      first [ rewrite (m_str_same l k p _ mk)
            | rewrite (m_str_none l k p s mk) by lit_none ]
  | |- context [m (Plus CSpace) ?k ?p ?s ?mk] =>
      first [ rewrite (m_blank k p _ _ mk) by (kguard || assumption || reflexivity)
            | rewrite (m_plus_stop CSpace k p s mk) by reflexivity ]
  | |- context [m (NotAhead ?r) ?k ?p ?s ?mk] =>
      change (m (NotAhead r) k p s mk)
        with (match m r (fun p' _ c => Some (p', c)) p s mk with
              | Some _ => None
              | None => k p s mk
              end)
  end; lazy beta iota.

Ltac no_match := unfold re_match; repeat mstep; reflexivity.

(** The recognizer [p] does not match the text at hand. *)
Ltac skip_pattern p :=
  match goal with
  | |- context [re_match p ?c] =>
      let H := fresh in
      assert (re_match p c = None) as H by (unfold p; no_match);
      rewrite H; clear H
  end.

(** The text at hand is what [strip] returns for it. *)
Ltac strip_same :=
  match goal with
  | |- context [strip ?c] =>
      let H := fresh in
      assert (strip c = c) as H
        by (rewrite <- !app_assoc; apply (strip_wrap _ "t"%char); reflexivity);
      rewrite H; clear H
  end.

(** Reading group [n] of the match object at hand. *)
Ltac read_group n :=
  erewrite (group_mark _ n); [|cbn; lia|reflexivity]; cbn [bind].

Ltac unset_group n :=
  erewrite (group_unset _ n); [|cbn; lia|reflexivity]; cbn [bind].

(** The slice at hand is the piece [v] between [u] and [w]. *)
Ltac cut_out u v w :=
  rewrite (slice_mid _ u v w)
    by (rewrite ?app_assoc, ?length_app; cbn [String.length]; (reflexivity || lia)).

Ltac same_text := cbn [fmt or_empty m_string]; rewrite ?app_assoc; reflexivity.

End ShapeFacts.

Module CountFacts.
Import Py Re Conv Shape Text ReFacts ConvFacts TextFacts ShapeFacts.

(** *** Classes that do not overlap *)

Ltac by_ascii c :=
  destruct c as [[] [] [] [] [] [] [] []]; (reflexivity || discriminate).

Lemma space_not_op c : is_space c = true -> mem c "!<>=" = false.
Proof. by_ascii c. Qed.

Lemma space_not_op' c : is_space c = true -> mem c "><=!" = false.
Proof. by_ascii c. Qed.

Lemma op_not_space c : mem c "!<>=" = true -> is_space c = false.
Proof. by_ascii c. Qed.

Lemma op_not_digit c : mem c "!<>=" = true -> is_digit c = false.
Proof. by_ascii c. Qed.

Lemma op_not_t c : mem c "!<>=" = true -> c <> "t"%char.
Proof. intros H ->. discriminate. Qed.

Lemma space_not_digit c : is_space c = true -> is_digit c = false.
Proof. by_ascii c. Qed.

Lemma digit_not_space c : is_digit c = true -> is_space c = false.
Proof. by_ascii c. Qed.

Lemma op_not_space' c : mem c "><=!" = true -> is_space c = false.
Proof. by_ascii c. Qed.

Lemma op_not_digit' c : mem c "><=!" = true -> is_digit c = false.
Proof. by_ascii c. Qed.

Lemma digit_not_op c : is_digit c = true -> mem c "!<>=" = false.
Proof. by_ascii c. Qed.

Lemma digit_not_op' c : is_digit c = true -> mem c "><=!" = false.
Proof. by_ascii c. Qed.

Lemma op_same c : mem c "><=!" = mem c "!<>=".
Proof. by_ascii c. Qed.

Lemma all_in_op_same o : all_in (CSet "><=!") o = all_in (CSet "!<>=") o.
Proof.
  induction o as [|c o IH]; [reflexivity|]. cbn [all_in in_class].
  now rewrite op_same, IH.
Qed.

(** *** What follows a run *)

Lemma stops_run cl cl' u t :
  (forall c, in_class cl' c = true -> in_class cl c = false) ->
  all_in cl' u = true -> stops cl t = true -> stops cl (u +:+ t) = true.
Proof.
  intros Hd Hu Ht. destruct u as [|c u]; [exact Ht|].
  rewrite app_cons. cbn in *. apply andb_true_iff in Hu as [Hc _].
  now rewrite (Hd c Hc).
Qed.

Lemma stops_head cl cl' u t :
  (forall c, in_class cl' c = true -> in_class cl c = false) ->
  nonempty u = true -> all_in cl' u = true -> stops cl (u +:+ t) = true.
Proof.
  intros Hd Hn Hu. destruct u as [|c u]; [discriminate|].
  rewrite app_cons. cbn in *. apply andb_true_iff in Hu as [Hc _].
  now rewrite (Hd c Hc).
Qed.

Lemma is_op_parts o :
  is_op o = true -> nonempty o = true /\ all_in (CSet "!<>=") o = true.
Proof. unfold is_op. intros H. now apply andb_true_iff in H. Qed.

Lemma is_digits_parts n :
  is_digits n = true -> nonempty n = true /\ all_in CDigit n = true.
Proof. unfold is_digits. intros H. now apply andb_true_iff in H. Qed.

(** *** Greedy runs over a text given piece by piece *)

Lemma m_star_app cl k pos u t mk :
  kguarded cl k -> all_in cl u = true -> stops cl t = true ->
  m (Star cl) k pos (u +:+ t) mk = k (pos + String.length u)%nat t mk.
Proof.
  intros Hk Hu Ht.
  change (m (Star cl) k pos (u +:+ t) mk)
    with (star cl (fun p t' => k p t' mk) pos (u +:+ t)).
  rewrite star_guarded by (intros p c t' Hc; now apply Hk).
  now rewrite span_app.
Qed.

Lemma m_group_plus_app n cl k pos u t mk :
  kguarded cl k -> nonempty u = true -> all_in cl u = true ->
  stops cl t = true ->
  m (Group n (Plus cl)) k pos (u +:+ t) mk
  = k (pos + String.length u)%nat t
      (<[n := Some (pos, (pos + String.length u)%nat)]> mk).
Proof.
  intros Hk Hn Hu Ht. rewrite m_group_plus_det, span_app by assumption.
  destruct (nonempty_length _ Hn) as [x ->]. reflexivity.
Qed.

(** With a continuation that accepts the longest run, the run is taken. *)
Lemma star_longest cl (k : nat -> string -> option (nat * marks)) s : forall pos,
  is_Some (k (pos + fst (span cl s))%nat (snd (span cl s))) ->
  star cl k pos s = k (pos + fst (span cl s))%nat (snd (span cl s)).
Proof.
  induction s as [|c s IH]; intros pos; cbn [star span].
  - cbn. now rewrite Nat.add_0_r.
  - destruct (in_class cl c).
    + destruct (span cl s) as [n r] eqn:E. cbn [fst snd] in *.
      replace (pos + S n)%nat with (S pos + n)%nat by lia.
      intros H. rewrite IH by exact H. now destruct H as [x ->].
    + cbn. now rewrite Nat.add_0_r.
Qed.

Lemma m_group_plus_last n cl pos u mk :
  nonempty u = true -> all_in cl u = true ->
  m (Group n (Plus cl)) accept pos u mk
  = accept (pos + String.length u)%nat ""
      (<[n := Some (pos, (pos + String.length u)%nat)]> mk).
Proof.
  intros Hn Hu. destruct u as [|c u]; [discriminate|].
  cbn in Hu. apply andb_true_iff in Hu as [Hc Hu].
  change (m (Group n (Plus cl)) accept pos (String c u) mk)
    with (m (Plus cl) (fun p t mk' => accept p t (<[n := Some (pos, p)]> mk'))
            pos (String c u) mk).
  cbn [m]. rewrite Hc.
  pose proof (span_app cl u "" Hu eq_refl) as Hs.
  replace (u +:+ "") with u in Hs
    by (clear; induction u as [|d u IH]; [reflexivity|rewrite app_cons; now f_equal]).
  rewrite star_longest; rewrite Hs; cbn [fst snd String.length].
  - unfold accept. now replace (S pos + String.length u)%nat
      with (pos + S (String.length u))%nat by lia.
  - unfold accept. eauto.
Qed.

(** *** Guards of the count patterns *)

Lemma kguarded_group_plus cl cl' n R (k : cont) :
  (forall c, in_class cl c = true -> in_class cl' c = false) ->
  kguarded cl (m (Group n (Plus cl') ⋅ R) k).
Proof.
  intros Hd p c t mk Hc. rewrite m_seq.
  change (m (Group n (Plus cl')) (m R k) p (String c t) mk)
    with (m (Plus cl') (fun p' t' mk' => m R k p' t' (<[n := Some (p, p')]> mk'))
            p (String c t) mk).
  cbn [m]. now rewrite (Hd c Hc).
Qed.

Lemma kguarded_group_plus_end cl cl' n (k : cont) :
  (forall c, in_class cl c = true -> in_class cl' c = false) ->
  kguarded cl (m (Group n (Plus cl')) k).
Proof.
  intros Hd p c t mk Hc.
  change (m (Group n (Plus cl')) k p (String c t) mk)
    with (m (Plus cl') (fun p' t' mk' => k p' t' (<[n := Some (p, p')]> mk'))
            p (String c t) mk).
  cbn [m]. now rewrite (Hd c Hc).
Qed.

Lemma kguarded_star cl cl' R (k : cont) :
  (forall c, in_class cl c = true -> in_class cl' c = false) ->
  kguarded cl (m R k) -> kguarded cl (m (Star cl' ⋅ R) k).
Proof.
  intros Hd Hk p c t mk Hc. rewrite m_seq.
  change (m (Star cl') (m R k) p (String c t) mk)
    with (star cl' (fun p' t' => m R k p' t' mk) p (String c t)).
  cbn [star]. rewrite (Hd c Hc). now apply Hk.
Qed.

Lemma lit_digits_none c0 p n t :
  is_digits n = true -> is_digit c0 = false -> lit (String c0 p) (n +:+ t) = None.
Proof.
  intros Hn Hc0. apply is_digits_parts in Hn as [Hne Hn].
  destruct n as [|c n]; [discriminate|]. rewrite app_cons. cbn in *.
  apply andb_true_iff in Hn as [Hc _].
  destruct (Ascii.eqb_spec c0 c) as [->|]; [congruence|reflexivity].
Qed.

Lemma app_nil_r (s : string) : s +:+ "" = s.
Proof. induction s as [|c s IH]; [reflexivity|]. rewrite app_cons. now f_equal. Qed.

Lemma strip_wrap_digits u c n :
  hd u = Some c -> is_space c = false -> is_digits n = true ->
  strip (u +:+ n) = u +:+ n.
Proof.
  intros Hu Hc Hn. apply is_digits_parts in Hn as [Hne Hn].
  destruct u as [|c' u]; [discriminate|]. injection Hu as ->.
  rewrite app_cons, strip_nonspace by exact Hc. f_equal.
  revert u. induction n as [|d n IH]; [discriminate|]. intros u.
  cbn in Hn. apply andb_true_iff in Hn as [Hd Hn].
  rewrite rstrip_app_nonspace by now apply digit_not_space. f_equal. f_equal.
  destruct n as [|e n]; [reflexivity|].
  specialize (IH eq_refl Hn ""). rewrite !app_nil_l in IH. exact IH.
Qed.

Lemma scan_call_empty open t : scan_call open (open +:+ ")" +:+ t) = None.
Proof. unfold scan_call. now rewrite lit_same. Qed.

End CountFacts.

Module StripFacts.
Import Py Re Conv Shape Text ReFacts ConvFacts TextFacts ShapeFacts.

Lemma lstrip_gap g t : all_in CSpace g = true -> lstrip (g +:+ t) = lstrip t.
Proof.
  induction g as [|c g IH]; [reflexivity|]. cbn [all_in in_class].
  intros H. apply andb_true_iff in H as [Hc Hg].
  rewrite app_cons. cbn [lstrip]. rewrite Hc. now apply IH.
Qed.

Lemma rstrip_gap_only g : all_in CSpace g = true -> rstrip g = "".
Proof.
  induction g as [|c g IH]; [reflexivity|]. cbn [all_in in_class].
  intros H. apply andb_true_iff in H as [Hc Hg].
  cbn [rstrip]. now rewrite IH, Hc.
Qed.

Lemma rstrip_gap s g : all_in CSpace g = true -> rstrip (s +:+ g) = rstrip s.
Proof.
  intros Hg. induction s as [|c s IH].
  - rewrite app_nil_l. now apply rstrip_gap_only.
  - rewrite app_cons. cbn [rstrip]. now rewrite IH.
Qed.

Lemma lstrip_app_gap s g :
  all_in CSpace g = true ->
  lstrip (s +:+ g) = lstrip s +:+ g \/ (lstrip s = "" /\ lstrip (s +:+ g) = "").
Proof.
  intros Hg. induction s as [|c s IH].
  - right. split; [reflexivity|]. rewrite app_nil_l.
    rewrite <- (CountFacts.app_nil_r g), lstrip_gap by exact Hg. reflexivity.
  - rewrite app_cons. cbn [lstrip]. destruct (is_space c); [exact IH|].
    left. now rewrite app_cons.
Qed.

Lemma strip_gaps g1 s g2 :
  all_in CSpace g1 = true -> all_in CSpace g2 = true ->
  strip (g1 +:+ s +:+ g2) = strip s.
Proof.
  intros H1 H2. unfold strip. rewrite lstrip_gap by exact H1.
  destruct (lstrip_app_gap s g2 H2) as [->|[-> ->]]; [|reflexivity].
  now apply rstrip_gap.
Qed.

End StripFacts.

(* ===================================================================== *)
(** ** More on the batch loop *)
(* ===================================================================== *)

Module BatchMore.
Import Py Re Conv Batch BatchSpec ReFacts ConvFacts BatchFacts.

(** What one iteration does to the counters and to the record. *)
Lemma step_cases rule st st' :
  step rule st = Ok st' ->
  (st' = st /\ with_condition (heap st) rule = false)
  \/ exists l items old new stored,
      rule = VRef l /\ heap st !! l = Some (ODict items)
      /\ dict_get "condition" items = Some (VStr old)
      /\ convert_condition old = Ok new
      /\ (stored = new \/ stored = in_marker +:+ new)
      /\ heap st' = <[l := ODict (dict_set "condition" (VStr stored) items)]> (heap st)
      /\ converted_count st' = S (converted_count st)
      /\ (needs_review_count st <= needs_review_count st'
          <= needs_review_count st + 2)%nat
      /\ (contains "TODO" new = true ->
          (needs_review_count st < needs_review_count st')%nat).
Proof.
  unfold step. destruct (has_condition (heap st) rule) as [[|]|] eqn:Eh;
    cbn [bind]; [| |discriminate].
  - unfold get_condition, set_condition.
    destruct rule as [| | | | |l]; try discriminate.
    destruct (heap st !! l) as [[items|vs]|] eqn:El; try discriminate.
    destruct (dict_get "condition" items) as [old|] eqn:Ec; [|discriminate].
    cbn [bind]. destruct old as [| | |old| |]; try discriminate.
    cbn [convert_value]. destruct (convert_condition old) as [new|] eqn:En;
      [|discriminate].
    cbn [bind]. cbv beta iota zeta. intros H. right.
    destruct (contains " not in [" new || contains " in [" new);
      [exists l, items, old, new, (in_marker +:+ new)
      |exists l, items, old, new, new];
      (destruct (contains "TODO" new) eqn:Et; cbn [orb] in H;
       try destruct (contains "#" new); cbn [bind] in H;
       injection H as <-; cbn [heap converted_count needs_review_count];
       repeat split; auto; try lia; discriminate).
  - intros [= <-]. left. split; [reflexivity|].
    unfold has_condition, with_condition in *.
    destruct rule as [| | |s| |l]; try reflexivity.
    destruct (heap st !! l) as [[items|vs]|]; try reflexivity.
    destruct (dict_get "condition" items); [discriminate|reflexivity].
Qed.

Lemma with_condition_step rule st st' :
  step rule st = Ok st' ->
  forall v, with_condition (heap st') v = with_condition (heap st) v.
Proof.
  intros H v.
  apply step_cases in H
    as [[-> _]|(l & items & old & new & stored & -> & Hl & Hc & _ & _ & Hh & _)];
    [reflexivity|].
  unfold with_condition. destruct v as [| | | | |l']; try reflexivity.
  rewrite Hh. destruct (decide (l' = l)) as [->|Hne].
  - now rewrite lookup_insert_eq, Hl, dict_get_set, Hc.
  - now rewrite lookup_insert_ne by congruence.
Qed.

Lemma filter_with_condition_ext h h' rules :
  (forall v, with_condition h' v = with_condition h v) ->
  List.filter (with_condition h') rules = List.filter (with_condition h) rules.
Proof.
  intros H. induction rules as [|r rs IH]; [reflexivity|].
  cbn. now rewrite H, IH.
Qed.

Lemma loop_count rules : forall st st',
  loop rules st = Ok st' ->
  converted_count st'
  = (converted_count st
     + length (List.filter (with_condition (heap st)) rules))%nat
  /\ (needs_review_count st' + 2 * converted_count st
      <= needs_review_count st + 2 * converted_count st')%nat.
Proof.
  induction rules as [|rule rules IH]; intros st st'; cbn [loop].
  - intros [= <-]. cbn. lia.
  - destruct (step rule st) as [st1|] eqn:E1; [|discriminate]. cbn [bind].
    intros H. apply IH in H as [Hc Hn].
    rewrite (filter_with_condition_ext _ _ _ (with_condition_step _ _ _ E1)) in Hc.
    cbn [List.filter].
    apply step_cases in E1
      as [[-> Hw]|(l & items & old & new & stored & -> & Hl & Hd & _ & _ & _
                   & Hcc & Hnn & _)].
    + rewrite Hw. split; [exact Hc|exact Hn].
    + assert (with_condition (heap st) (VRef l) = true) as ->.
      { unfold with_condition. now rewrite Hl, Hd. }
      cbn [length]. lia.
Qed.

(** The converter's text is taken to the fallback by the converter. *)
Lemma convert_converted (out : string) :
  converted_text out = true ->
  convert_condition out = Ok (manual_review (strip out)).
Proof.
  unfold converted_text. intros H.
  apply orb_true_iff in H as [H|H]; apply startswith_head in H as [t ->];
    apply convert_foreign; (reflexivity || discriminate).
Qed.

Lemma step_holds rule st st' :
  step rule st = Ok st' ->
  (forall v, holds_converted (heap st) v -> holds_converted (heap st') v)
  /\ holds_converted (heap st') rule.
Proof.
  intros H.
  apply step_cases in H
    as [[-> Hw]|(l & items & old & new & stored & -> & Hl & Hc & Hnew & Hst & Hh & _)].
  - split; [auto|]. intros l items c -> Hl Hc.
    unfold with_condition in Hw. now rewrite Hl, Hc in Hw.
  - assert (converted_text stored = true) as Hconv.
    { destruct Hst as [->| ->]; [|reflexivity].
      unfold converted_text. eapply convert_head, Hnew. }
    assert (forall l' items' c,
              heap st' !! l' = Some (ODict items') ->
              dict_get "condition" items' = Some c ->
              l' = l -> exists out, c = VStr out /\ converted_text out = true)
      as Hat.
    { intros l' items' c Hl' Hc' ->. rewrite Hh, lookup_insert_eq in Hl'.
      injection Hl' as <-. rewrite dict_get_set in Hc'. injection Hc' as <-.
      eauto. }
    split.
    + intros v Hv l' items' c -> Hl' Hc'.
      destruct (decide (l' = l)) as [Heq|Hne];
        [exact (Hat l' items' c Hl' Hc' Heq)|].
      rewrite Hh, lookup_insert_ne in Hl' by congruence.
      now apply (Hv l' items' c).
    + intros l' items' c [= <-] Hl' Hc'. exact (Hat l items' c Hl' Hc' eq_refl).
Qed.

Lemma loop_holds rules : forall st st',
  loop rules st = Ok st' ->
  (forall v, holds_converted (heap st) v -> holds_converted (heap st') v)
  /\ Forall (holds_converted (heap st')) rules.
Proof.
  induction rules as [|rule rules IH]; intros st st'; cbn [loop].
  - intros [= <-]. split; [auto|constructor].
  - destruct (step rule st) as [st1|] eqn:E1; [|discriminate]. cbn [bind].
    intros H. apply IH in H as [Hkeep Hall].
    apply step_holds in E1 as [Hkeep1 Hrule].
    split; [auto|]. constructor; auto.
Qed.

Lemma loop_rerun rules : forall st st',
  Forall (holds_converted (heap st)) rules ->
  loop rules st = Ok st' ->
  (converted_count st' + needs_review_count st
   <= needs_review_count st' + converted_count st)%nat.
Proof.
  induction rules as [|rule rules IH]; intros st st' Hall; cbn [loop].
  - intros [= <-]. lia.
  - destruct (step rule st) as [st1|] eqn:E1; [|discriminate]. cbn [bind].
    intros H. inversion Hall as [|? ? Hrule Hrest]; subst.
    pose proof (step_holds _ _ _ E1) as [Hkeep _].
    apply IH in H; [|eapply Forall_impl; eauto].
    apply step_cases in E1
      as [[-> _]|(l & items & old & new & stored & -> & Hl & Hc & Hnew & _ & _
                  & Hcc & _ & Htodo)]; [exact H|].
    destruct (Hrule l items (VStr old) eq_refl Hl Hc) as (out & [= <-] & Hconv).
    rewrite (convert_converted _ Hconv) in Hnew. injection Hnew as <-.
    specialize (Htodo eq_refl). lia.
Qed.

Lemma loop_app a : forall b st,
  loop (a ++ b)%list st = (let* st1 := loop a st in loop b st1).
Proof.
  induction a as [|r a IH]; intros b st; [reflexivity|]. cbn [app loop].
  destruct (step r st) as [st1|]; cbn [bind]; [apply IH|reflexivity].
Qed.

Lemma loop_untouched rules : forall st st' l items,
  loop rules st = Ok st' ->
  heap st !! l = Some (ODict items) ->
  dict_get "condition" items = None ->
  heap st' !! l = Some (ODict items).
Proof.
  induction rules as [|rule rules IH]; intros st st' l items; cbn [loop].
  - now intros [= <-].
  - destruct (step rule st) as [st1|] eqn:E1; [|discriminate]. cbn [bind].
    intros H Hl Hc. eapply IH; [exact H| |exact Hc].
    apply step_cases in E1
      as [[-> _]|(l' & items' & old & new & stored & _ & Hl' & Hc' & _ & _ & Hh & _)];
      [exact Hl|].
    rewrite Hh. destruct (decide (l = l')) as [->|Hne].
    + rewrite Hl in Hl'. injection Hl' as <-. congruence.
    + now rewrite lookup_insert_ne by congruence.
Qed.

Lemma convert_yaml_file_inv h data h' c n :
  convert_yaml_file h data = Ok (h', (c, n)) ->
  exists rules st,
    get_rules h data = Ok rules /\ loop rules (mkState h 0 0) = Ok st
    /\ h' = heap st /\ c = converted_count st /\ n = needs_review_count st.
Proof.
  unfold convert_yaml_file.
  destruct (get_rules h data) as [rules|]; [|discriminate]. cbn [bind].
  destruct (loop rules _) as [st|] eqn:E; [|discriminate]. cbn [bind].
  intros [= <- <- <-]. eauto 10.
Qed.

End BatchMore.

(* ===================================================================== *)
(** ** The blank-line clean-up *)
(* ===================================================================== *)

Module CleanFacts.
Import Py Re Shape Parser Clean ReFacts ConvFacts TextFacts CountFacts.

Abbreviation NL := (ascii_of_nat 10).
Abbreviation nls := (CSet nl).

(** Number of newlines the text opens with. *)
Abbreviation nlrun s := (fst (span nls s)).

Lemma in_nls c : in_class nls c = Ascii.eqb NL c.
Proof. cbn. now rewrite orb_false_r. Qed.

Lemma nlrun_cons c s :
  nlrun (String c s) = if Ascii.eqb NL c then S (nlrun s) else 0%nat.
Proof.
  cbn [span]. rewrite in_nls. destruct (Ascii.eqb NL c); [|reflexivity].
  now destruct (span nls s).
Qed.

Lemma span_snd_drop cl s : snd (span cl s) = drop (fst (span cl s)) s.
Proof.
  induction s as [|c s IH]; [reflexivity|]. cbn [span].
  destruct (in_class cl c); [|reflexivity].
  destruct (span cl s) as [n r]. cbn in *. exact IH.
Qed.

Lemma nlrun_drop s : nlrun (drop (nlrun s) s) = 0%nat.
Proof.
  induction s as [|c s IH]; [reflexivity|].
  rewrite nlrun_cons. destruct (Ascii.eqb NL c) eqn:E.
  - cbn [drop]. exact IH.
  - cbn [drop]. rewrite nlrun_cons. now rewrite E.
Qed.

Lemma nlrun_le s : (nlrun s <= String.length s)%nat.
Proof.
  induction s as [|c s IH]; [reflexivity|]. rewrite nlrun_cons.
  destruct (Ascii.eqb NL c); cbn [String.length]; lia.
Qed.

(** The pattern matches where three newlines or more begin, and then the
    whole run. *)
Lemma match_len_blank s :
  match_len blank_lines s
  = if (3 <=? nlrun s)%nat then Some (nlrun s) else None.
Proof.
  unfold match_len, re_match, blank_lines.
  rewrite m_seq, m_str.
  change (nl +:+ nl) with (String NL (String NL "")).
  destruct s as [|c1 s]; [reflexivity|].
  rewrite nlrun_cons. cbn [lit].
  destruct (Ascii.eqb NL c1) eqn:E1; [|reflexivity].
  destruct s as [|c2 s]; [reflexivity|].
  rewrite nlrun_cons. destruct (Ascii.eqb NL c2) eqn:E2; [|reflexivity].
  destruct s as [|c3 s]; [reflexivity|].
  rewrite nlrun_cons. cbn [m]. rewrite in_nls.
  destruct (Ascii.eqb NL c3) eqn:E3; [|reflexivity].
  rewrite star_longest by (unfold accept; eauto).
  unfold accept, m_end. cbn [m_marks].
  rewrite list_lookup_insert_eq by (rewrite length_replicate; lia).
  cbn [String.length Nat.leb]. reflexivity.
Qed.

Lemma sub_from_skip p repl : forall s k,
  (k <= String.length s)%nat ->
  sub_from p repl k s = sub_from p repl 0 (drop k s).
Proof.
  induction s as [|c s IH]; intros k Hk.
  - cbn in Hk. now replace k with 0%nat by lia.
  - destruct k as [|k]; [reflexivity|]. cbn [sub_from drop].
    apply IH. cbn in Hk. lia.
Qed.

(** How the clean-up proceeds from the head of the text. *)
Lemma collapse_cons c s :
  collapse_blank_lines (String c s)
  = if (3 <=? nlrun (String c s))%nat
    then nl +:+ nl +:+ collapse_blank_lines (drop (nlrun (String c s)) (String c s))
    else String c (collapse_blank_lines s).
Proof.
  unfold collapse_blank_lines, re_sub. cbn [sub_from].
  rewrite match_len_blank.
  destruct (3 <=? nlrun (String c s))%nat eqn:E; [|reflexivity].
  apply Nat.leb_le in E.
  destruct (nlrun (String c s)) as [|n] eqn:En; [lia|].
  cbn [drop]. rewrite sub_from_skip.
  - now rewrite app_assoc.
  - pose proof (nlrun_le (String c s)) as H. rewrite En in H. cbn in H. lia.
Qed.

Lemma collapse_nil : collapse_blank_lines "" = "".
Proof. reflexivity. Qed.

Lemma drop_length n : forall s,
  (String.length (drop n s) <= String.length s)%nat.
Proof.
  induction n as [|n IH]; intros s; [reflexivity|].
  destruct s as [|c s]; [reflexivity|]. cbn. specialize (IH s). lia.
Qed.

Lemma drop_shorter n s :
  (0 < n)%nat -> s <> "" ->
  (String.length (drop n s) < String.length s)%nat.
Proof.
  intros Hn Hs. destruct n as [|n]; [lia|]. destruct s as [|c s]; [easy|].
  cbn. pose proof (drop_length n s). lia.
Qed.

Abbreviation nnn := (nl +:+ nl +:+ nl).

Lemma startswith_nnn s : startswith nnn s = (3 <=? nlrun s)%nat.
Proof.
  unfold startswith. change nnn with (String NL (String NL (String NL ""))).
  destruct s as [|c1 s]; [reflexivity|]. rewrite nlrun_cons. cbn [lit].
  destruct (Ascii.eqb NL c1); [|reflexivity].
  destruct s as [|c2 s]; [reflexivity|]. rewrite nlrun_cons.
  destruct (Ascii.eqb NL c2); [|reflexivity].
  destruct s as [|c3 s]; [reflexivity|]. rewrite nlrun_cons.
  destruct (Ascii.eqb NL c3); reflexivity.
Qed.

Lemma contains_nnn_cons c s :
  contains nnn (String c s)
  = (3 <=? nlrun (String c s))%nat || contains nnn s.
Proof. cbn [contains]. now rewrite startswith_nnn. Qed.

Lemma collapse_bounded n : forall s,
  (String.length s <= n)%nat ->
  nlrun (collapse_blank_lines s) = Nat.min (nlrun s) 2
  /\ contains nnn (collapse_blank_lines s) = false.
Proof.
  induction n as [|n IH]; intros s Hs.
  - destruct s; [|cbn in Hs; lia]. split; reflexivity.
  - destruct s as [|c s]; [split; reflexivity|].
    rewrite collapse_cons.
    destruct (3 <=? nlrun (String c s))%nat eqn:E.
    + apply Nat.leb_le in E.
      destruct (IH (drop (nlrun (String c s)) (String c s))) as [Hr Hc].
      { pose proof (drop_shorter (nlrun (String c s)) (String c s)
                      ltac:(lia) ltac:(discriminate)) as H.
        lia. }
      rewrite nlrun_drop in Hr. change (0 `min` 2)%nat with 0%nat in Hr.
      remember (collapse_blank_lines (drop (nlrun (String c s)) (String c s)))
        as x eqn:Ex. clear Ex.
      remember (nlrun (String c s)) as r eqn:Er. clear Er.
      change (nl +:+ nl +:+ x) with (String NL (String NL x)).
      rewrite !contains_nnn_cons, !nlrun_cons, Ascii.eqb_refl, Hr, Hc.
      split; [|reflexivity].
      lia.
    + apply Nat.leb_gt in E.
      destruct (IH s) as [Hr Hc]; [cbn in Hs; lia|].
      rewrite contains_nnn_cons, !nlrun_cons, Hr, Hc.
      rewrite nlrun_cons in E.
      destruct (Ascii.eqb NL c).
      * split; [lia|]. rewrite orb_false_r. apply Nat.leb_gt. lia.
      * split; reflexivity.
Qed.

Lemma without_newlines_drop s :
  without_newlines (drop (nlrun s) s) = without_newlines s.
Proof.
  induction s as [|c s IH]; [reflexivity|]. rewrite nlrun_cons.
  cbn [without_newlines]. destruct (Ascii.eqb NL c) eqn:E; [exact IH|].
  cbn [drop without_newlines]. now rewrite E.
Qed.

Lemma collapse_keeps n : forall s,
  (String.length s <= n)%nat ->
  without_newlines (collapse_blank_lines s) = without_newlines s.
Proof.
  induction n as [|n IH]; intros s Hs.
  - destruct s; [reflexivity|cbn in Hs; lia].
  - destruct s as [|c s]; [reflexivity|].
    rewrite collapse_cons.
    destruct (3 <=? nlrun (String c s))%nat eqn:E.
    + apply Nat.leb_le in E.
      change (nl +:+ nl +:+ ?x) with (String NL (String NL x)).
      cbn [without_newlines]. rewrite Ascii.eqb_refl.
      rewrite IH, without_newlines_drop; [reflexivity|].
      pose proof (drop_shorter (nlrun (String c s)) (String c s)
                    ltac:(lia) ltac:(discriminate)) as H.
      lia.
    + cbn [without_newlines]. rewrite IH by (cbn in Hs; lia). reflexivity.
Qed.

Lemma collapse_fixed s :
  contains nnn s = false -> collapse_blank_lines s = s.
Proof.
  induction s as [|c s IH]; [reflexivity|].
  rewrite contains_nnn_cons, collapse_cons. intros H.
  apply orb_false_iff in H as [-> H]. now rewrite IH.
Qed.

End CleanFacts.

(* ===================================================================== *)
(** ** Further properties of the converter *)
(* ===================================================================== *)

Import Text BatchSpec TextFacts ShapeFacts CountFacts StripFacts BatchMore.

(** X11: [trace.has(X)] alone, for any span name [X], becomes [when { X }] under the TODO line that asks for an always/never clause. *)
Theorem single_has (X : string) :
  is_name X = true ->
  convert_condition
    ("trace.has(" +:+ X +:+ ")")
  = Ok
      ("# TODO: Add always/never clause" +:+ nl +:+ "when { " +:+ X +:+ " }").
Proof.
  intros H0.
  unfold convert_condition. strip_same.
  skip_pattern pattern1. skip_pattern pattern2. skip_pattern pattern3.
  skip_pattern pattern4a. skip_pattern pattern4b. skip_pattern pattern5.
  skip_pattern pattern6. skip_pattern pattern7. skip_pattern pattern8.
  unfold re_match at 1, pattern9. repeat mstep.
  unfold accept, emit9.
  read_group 1.
  cut_out ("trace.has(")
      (X)
      (")").
  same_text.
Qed.

Lemma single_has_witness :
  convert_condition
    ("trace.has(" +:+ "db.query" +:+ ")")
  = Ok
      ("# TODO: Add always/never clause" +:+ nl +:+ "when { " +:+
       "db.query" +:+ " }").
Proof.
  exact (single_has "db.query"
           eq_refl).
Defined.

(** X10: [trace.has(X).where(W)] alone becomes [when { X.where(W) }] under the TODO line that asks for an always/never clause. *)
Theorem single_has_where (X W : string) :
  is_name X = true ->
  is_name W = true ->
  convert_condition
    ("trace.has(" +:+ X +:+ ")" +:+ ".where(" +:+ W +:+ ")")
  = Ok
      ("# TODO: Add always/never clause" +:+ nl +:+ "when { " +:+ X +:+
       ".where(" +:+ W +:+ ")" +:+ " }").
Proof.
  intros H0 H1.
  unfold convert_condition. strip_same.
  skip_pattern pattern1. skip_pattern pattern2. skip_pattern pattern3.
  skip_pattern pattern4a. skip_pattern pattern4b. skip_pattern pattern5.
  skip_pattern pattern6. skip_pattern pattern7.
  unfold re_match at 1, pattern8. repeat mstep.
  unfold accept, emit8.
  read_group 1. read_group 2.
  cut_out ("trace.has(")
      (X)
      (")" +:+ ".where(" +:+ W +:+ ")").
  cut_out ("trace.has(" +:+ X +:+ ")")
      (".where(" +:+ W +:+ ")")
      ("").
  same_text.
Qed.

Lemma single_has_where_witness :
  convert_condition
    ("trace.has(" +:+ "db.query" +:+ ")" +:+ ".where(" +:+
     "amount > 1000" +:+ ")")
  = Ok
      ("# TODO: Add always/never clause" +:+ nl +:+ "when { " +:+
       "db.query" +:+ ".where(" +:+ "amount > 1000" +:+ ")" +:+ " }").
Proof.
  exact (single_has_where "db.query" "amount > 1000"
           eq_refl eq_refl).
Defined.

(** X7: [trace.has(A) and trace.has(B)], with any whitespace around [and], becomes [when { A } always { B }]. *)
Theorem has_and_has (A B w1 w2 : string) :
  is_name A = true ->
  is_name B = true ->
  is_blank w1 = true ->
  is_blank w2 = true ->
  convert_condition
    ("trace.has(" +:+ A +:+ ")" +:+ w1 +:+ "and" +:+ w2 +:+
     "trace.has(" +:+ B +:+ ")")
  = Ok
      ("when { " +:+ A +:+ " } always { " +:+ B +:+ " }").
Proof.
  intros H0 H1 H2 H3.
  unfold convert_condition. strip_same.
  skip_pattern pattern1. skip_pattern pattern2. skip_pattern pattern3.
  skip_pattern pattern4a. skip_pattern pattern4b.
  unfold re_match at 1, pattern5. repeat mstep.
  unfold accept, emit5.
  read_group 1. read_group 2.
  cut_out ("trace.has(")
      (A)
      (")" +:+ w1 +:+ "and" +:+ w2 +:+ "trace.has(" +:+ B +:+ ")").
  cut_out ("trace.has(" +:+ A +:+ ")" +:+ w1 +:+ "and" +:+ w2 +:+ "trace.has(")
      (B)
      (")").
  same_text.
Qed.

Lemma has_and_has_witness :
  convert_condition
    ("trace.has(" +:+ "payment.charge" +:+ ")" +:+ " " +:+ "and" +:+
     (nl +:+ "  ") +:+ "trace.has(" +:+ "fraud.check" +:+ ")")
  = Ok
      ("when { " +:+ "payment.charge" +:+ " } always { " +:+
       "fraud.check" +:+ " }").
Proof.
  exact (has_and_has "payment.charge" "fraud.check" " " (nl +:+ "  ")
           eq_refl eq_refl eq_refl eq_refl).
Defined.

(** X6: [trace.has(A) and trace.has(B).where(W)] becomes [when { A } always { B.where(W) }]. *)
Theorem has_and_has_where (A B W w1 w2 : string) :
  is_name A = true ->
  is_name B = true ->
  is_name W = true ->
  is_blank w1 = true ->
  is_blank w2 = true ->
  convert_condition
    ("trace.has(" +:+ A +:+ ")" +:+ w1 +:+ "and" +:+ w2 +:+
     "trace.has(" +:+ B +:+ ")" +:+ ".where(" +:+ W +:+ ")")
  = Ok
      ("when { " +:+ A +:+ " } always { " +:+ B +:+ ".where(" +:+ W +:+
       ")" +:+ " }").
Proof.
  intros H0 H1 H2 H3 H4.
  unfold convert_condition. strip_same.
  skip_pattern pattern1. skip_pattern pattern2. skip_pattern pattern3.
  skip_pattern pattern4a.
  unfold re_match at 1, pattern4b. repeat mstep.
  unfold accept, emit4b.
  read_group 1. read_group 2. read_group 3.
  cut_out ("trace.has(")
      (A)
      (")" +:+ w1 +:+ "and" +:+ w2 +:+ "trace.has(" +:+ B +:+ ")" +:+ ".where(" +:+ W +:+ ")").
  cut_out ("trace.has(" +:+ A +:+ ")" +:+ w1 +:+ "and" +:+ w2 +:+ "trace.has(")
      (B)
      (")" +:+ ".where(" +:+ W +:+ ")").
  cut_out ("trace.has(" +:+ A +:+ ")" +:+ w1 +:+ "and" +:+ w2 +:+ "trace.has(" +:+ B +:+ ")")
      (".where(" +:+ W +:+ ")")
      ("").
  same_text.
Qed.

Lemma has_and_has_where_witness :
  convert_condition
    ("trace.has(" +:+ "payment.charge" +:+ ")" +:+ " " +:+ "and" +:+
     (nl +:+ "  ") +:+ "trace.has(" +:+ "fraud.check" +:+ ")" +:+
     ".where(" +:+ "amount > 1000" +:+ ")")
  = Ok
      ("when { " +:+ "payment.charge" +:+ " } always { " +:+
       "fraud.check" +:+ ".where(" +:+ "amount > 1000" +:+ ")" +:+ " }").
Proof.
  exact (has_and_has_where "payment.charge" "fraud.check" "amount > 1000" " " (nl +:+ "  ")
           eq_refl eq_refl eq_refl eq_refl eq_refl).
Defined.

(** X5: [trace.has(A).where(W) and trace.has(B)] becomes [when { A.where(W) } always { B }]. *)
Theorem has_where_and_has (A W B w1 w2 : string) :
  is_name A = true ->
  is_name W = true ->
  is_name B = true ->
  is_blank w1 = true ->
  is_blank w2 = true ->
  convert_condition
    ("trace.has(" +:+ A +:+ ")" +:+ ".where(" +:+ W +:+ ")" +:+ w1 +:+
     "and" +:+ w2 +:+ "trace.has(" +:+ B +:+ ")")
  = Ok
      ("when { " +:+ A +:+ ".where(" +:+ W +:+ ")" +:+ " } always { " +:+
       B +:+ " }").
Proof.
  intros H0 H1 H2 H3 H4.
  unfold convert_condition. strip_same.
  skip_pattern pattern1. skip_pattern pattern2. skip_pattern pattern3.
  unfold re_match at 1, pattern4a. repeat mstep.
  unfold accept, emit4a.
  read_group 1. read_group 2. read_group 3.
  cut_out ("trace.has(")
      (A)
      (")" +:+ ".where(" +:+ W +:+ ")" +:+ w1 +:+ "and" +:+ w2 +:+ "trace.has(" +:+ B +:+ ")").
  cut_out ("trace.has(" +:+ A +:+ ")")
      (".where(" +:+ W +:+ ")")
      (w1 +:+ "and" +:+ w2 +:+ "trace.has(" +:+ B +:+ ")").
  cut_out ("trace.has(" +:+ A +:+ ")" +:+ ".where(" +:+ W +:+ ")" +:+ w1 +:+ "and" +:+ w2 +:+ "trace.has(")
      (B)
      (")").
  same_text.
Qed.

Lemma has_where_and_has_witness :
  convert_condition
    ("trace.has(" +:+ "payment.charge" +:+ ")" +:+ ".where(" +:+
     "amount > 1000" +:+ ")" +:+ " " +:+ "and" +:+ (nl +:+ "  ") +:+
     "trace.has(" +:+ "fraud.check" +:+ ")")
  = Ok
      ("when { " +:+ "payment.charge" +:+ ".where(" +:+ "amount > 1000" +:+
       ")" +:+ " } always { " +:+ "fraud.check" +:+ " }").
Proof.
  exact (has_where_and_has "payment.charge" "amount > 1000" "fraud.check" " " (nl +:+ "  ")
           eq_refl eq_refl eq_refl eq_refl eq_refl).
Defined.

(** X4: [trace.has(A).where(Wa) and trace.has(B).where(Wb)] becomes [when { A.where(Wa) } always { B.where(Wb) }]. *)
Theorem has_where_and_has_where (A Wa B Wb w1 w2 : string) :
  is_name A = true ->
  is_name Wa = true ->
  is_name B = true ->
  is_name Wb = true ->
  is_blank w1 = true ->
  is_blank w2 = true ->
  convert_condition
    ("trace.has(" +:+ A +:+ ")" +:+ ".where(" +:+ Wa +:+ ")" +:+ w1 +:+
     "and" +:+ w2 +:+ "trace.has(" +:+ B +:+ ")" +:+ ".where(" +:+ Wb +:+
     ")")
  = Ok
      ("when { " +:+ A +:+ ".where(" +:+ Wa +:+ ")" +:+ " } always { " +:+
       B +:+ ".where(" +:+ Wb +:+ ")" +:+ " }").
Proof.
  intros H0 H1 H2 H3 H4 H5.
  unfold convert_condition. strip_same.
  skip_pattern pattern1. skip_pattern pattern2.
  unfold re_match at 1, pattern3. repeat mstep.
  unfold accept, emit3.
  read_group 1. read_group 2. read_group 3. read_group 4.
  cut_out ("trace.has(")
      (A)
      (")" +:+ ".where(" +:+ Wa +:+ ")" +:+ w1 +:+ "and" +:+ w2 +:+ "trace.has(" +:+ B +:+ ")" +:+ ".where(" +:+ Wb +:+ ")").
  cut_out ("trace.has(" +:+ A +:+ ")")
      (".where(" +:+ Wa +:+ ")")
      (w1 +:+ "and" +:+ w2 +:+ "trace.has(" +:+ B +:+ ")" +:+ ".where(" +:+ Wb +:+ ")").
  cut_out ("trace.has(" +:+ A +:+ ")" +:+ ".where(" +:+ Wa +:+ ")" +:+ w1 +:+ "and" +:+ w2 +:+ "trace.has(")
      (B)
      (")" +:+ ".where(" +:+ Wb +:+ ")").
  cut_out ("trace.has(" +:+ A +:+ ")" +:+ ".where(" +:+ Wa +:+ ")" +:+ w1 +:+ "and" +:+ w2 +:+ "trace.has(" +:+ B +:+ ")")
      (".where(" +:+ Wb +:+ ")")
      ("").
  same_text.
Qed.

Lemma has_where_and_has_where_witness :
  convert_condition
    ("trace.has(" +:+ "payment.charge" +:+ ")" +:+ ".where(" +:+
     "amount > 1000" +:+ ")" +:+ " " +:+ "and" +:+ (nl +:+ "  ") +:+
     "trace.has(" +:+ "fraud.check" +:+ ")" +:+ ".where(" +:+
     "score < 5" +:+ ")")
  = Ok
      ("when { " +:+ "payment.charge" +:+ ".where(" +:+ "amount > 1000" +:+
       ")" +:+ " } always { " +:+ "fraud.check" +:+ ".where(" +:+
       "score < 5" +:+ ")" +:+ " }").
Proof.
  exact (has_where_and_has_where "payment.charge" "amount > 1000" "fraud.check" "score < 5" " " (nl +:+ "  ")
           eq_refl eq_refl eq_refl eq_refl eq_refl eq_refl).
Defined.

(** X3: [trace.has(A) and trace.has(B) and trace.has(C).where(W)] becomes [when { A and B } always { C.where(W) }]. *)
Theorem has_and_has_and_has_where (A B C W w1 w2 w3 w4 : string) :
  is_name A = true ->
  is_name B = true ->
  is_name C = true ->
  is_name W = true ->
  is_blank w1 = true ->
  is_blank w2 = true ->
  is_blank w3 = true ->
  is_blank w4 = true ->
  convert_condition
    ("trace.has(" +:+ A +:+ ")" +:+ w1 +:+ "and" +:+ w2 +:+
     "trace.has(" +:+ B +:+ ")" +:+ w3 +:+ "and" +:+ w4 +:+
     "trace.has(" +:+ C +:+ ")" +:+ ".where(" +:+ W +:+ ")")
  = Ok
      ("when { " +:+ A +:+ " and " +:+ B +:+ " } always { " +:+ C +:+
       ".where(" +:+ W +:+ ")" +:+ " }").
Proof.
  intros H0 H1 H2 H3 H4 H5 H6 H7.
  unfold convert_condition. strip_same.
  skip_pattern pattern1.
  unfold re_match at 1, pattern2. repeat mstep.
  unfold accept, emit2.
  read_group 1. read_group 2. read_group 3. read_group 4.
  cut_out ("trace.has(")
      (A)
      (")" +:+ w1 +:+ "and" +:+ w2 +:+ "trace.has(" +:+ B +:+ ")" +:+ w3 +:+ "and" +:+ w4 +:+ "trace.has(" +:+ C +:+ ")" +:+ ".where(" +:+ W +:+ ")").
  cut_out ("trace.has(" +:+ A +:+ ")" +:+ w1 +:+ "and" +:+ w2 +:+ "trace.has(")
      (B)
      (")" +:+ w3 +:+ "and" +:+ w4 +:+ "trace.has(" +:+ C +:+ ")" +:+ ".where(" +:+ W +:+ ")").
  cut_out ("trace.has(" +:+ A +:+ ")" +:+ w1 +:+ "and" +:+ w2 +:+ "trace.has(" +:+ B +:+ ")" +:+ w3 +:+ "and" +:+ w4 +:+ "trace.has(")
      (C)
      (")" +:+ ".where(" +:+ W +:+ ")").
  cut_out ("trace.has(" +:+ A +:+ ")" +:+ w1 +:+ "and" +:+ w2 +:+ "trace.has(" +:+ B +:+ ")" +:+ w3 +:+ "and" +:+ w4 +:+ "trace.has(" +:+ C +:+ ")")
      (".where(" +:+ W +:+ ")")
      ("").
  same_text.
Qed.

Lemma has_and_has_and_has_where_witness :
  convert_condition
    ("trace.has(" +:+ "payment.charge" +:+ ")" +:+ " " +:+ "and" +:+
     (nl +:+ "  ") +:+ "trace.has(" +:+ "fraud.check" +:+ ")" +:+ " " +:+
     "and" +:+ " " +:+ "trace.has(" +:+ "audit.log" +:+ ")" +:+
     ".where(" +:+ "amount > 1000" +:+ ")")
  = Ok
      ("when { " +:+ "payment.charge" +:+ " and " +:+ "fraud.check" +:+
       " } always { " +:+ "audit.log" +:+ ".where(" +:+ "amount > 1000" +:+
       ")" +:+ " }").
Proof.
  exact (has_and_has_and_has_where "payment.charge" "fraud.check" "audit.log" "amount > 1000" " " (nl +:+ "  ") " " " "
           eq_refl eq_refl eq_refl eq_refl eq_refl eq_refl eq_refl eq_refl).
Defined.

(** X1: [trace.has(A).where(W) and not trace.has(B)] becomes [when { A.where(W) } never { B }]. *)
Theorem has_where_and_not_has (A W B w1 w2 w3 : string) :
  is_name A = true ->
  is_name W = true ->
  is_name B = true ->
  is_blank w1 = true ->
  is_blank w2 = true ->
  is_blank w3 = true ->
  convert_condition
    ("trace.has(" +:+ A +:+ ")" +:+ ".where(" +:+ W +:+ ")" +:+ w1 +:+
     "and" +:+ w2 +:+ "not" +:+ w3 +:+ "trace.has(" +:+ B +:+ ")")
  = Ok
      ("when { " +:+ A +:+ ".where(" +:+ W +:+ ")" +:+ " } never { " +:+
       B +:+ " }").
Proof.
  intros H0 H1 H2 H3 H4 H5.
  unfold convert_condition. strip_same.
  unfold re_match at 1, pattern1. repeat mstep.
  unfold accept, emit1.
  read_group 1. read_group 2. read_group 3.
  cut_out ("trace.has(")
      (A)
      (")" +:+ ".where(" +:+ W +:+ ")" +:+ w1 +:+ "and" +:+ w2 +:+ "not" +:+ w3 +:+ "trace.has(" +:+ B +:+ ")").
  cut_out ("trace.has(" +:+ A +:+ ")")
      (".where(" +:+ W +:+ ")")
      (w1 +:+ "and" +:+ w2 +:+ "not" +:+ w3 +:+ "trace.has(" +:+ B +:+ ")").
  cut_out ("trace.has(" +:+ A +:+ ")" +:+ ".where(" +:+ W +:+ ")" +:+ w1 +:+ "and" +:+ w2 +:+ "not" +:+ w3 +:+ "trace.has(")
      (B)
      (")").
  same_text.
Qed.

Lemma has_where_and_not_has_witness :
  convert_condition
    ("trace.has(" +:+ "payment.charge" +:+ ")" +:+ ".where(" +:+
     "amount > 1000" +:+ ")" +:+ " " +:+ "and" +:+ (nl +:+ "  ") +:+
     "not" +:+ " " +:+ "trace.has(" +:+ "fraud.check" +:+ ")")
  = Ok
      ("when { " +:+ "payment.charge" +:+ ".where(" +:+ "amount > 1000" +:+
       ")" +:+ " } never { " +:+ "fraud.check" +:+ " }").
Proof.
  exact (has_where_and_not_has "payment.charge" "amount > 1000" "fraud.check" " " (nl +:+ "  ") " "
           eq_refl eq_refl eq_refl eq_refl eq_refl eq_refl).
Defined.

(** X2: [trace.has(A) and not trace.has(B)], the where clause left out, becomes [when { A } never { B }]. *)
Theorem has_and_not_has (A B w1 w2 w3 : string) :
  is_name A = true ->
  is_name B = true ->
  is_blank w1 = true ->
  is_blank w2 = true ->
  is_blank w3 = true ->
  convert_condition
    ("trace.has(" +:+ A +:+ ")" +:+ w1 +:+ "and" +:+ w2 +:+ "not" +:+
     w3 +:+ "trace.has(" +:+ B +:+ ")")
  = Ok
      ("when { " +:+ A +:+ " } never { " +:+ B +:+ " }").
Proof.
  intros H0 H1 H2 H3 H4.
  unfold convert_condition. strip_same.
  unfold re_match at 1, pattern1. repeat mstep.
  unfold accept, emit1.
  read_group 1. unset_group 2. read_group 3.
  cut_out ("trace.has(")
      (A)
      (")" +:+ w1 +:+ "and" +:+ w2 +:+ "not" +:+ w3 +:+ "trace.has(" +:+ B +:+ ")").
  cut_out ("trace.has(" +:+ A +:+ ")" +:+ w1 +:+ "and" +:+ w2 +:+ "not" +:+ w3 +:+ "trace.has(")
      (B)
      (")").
  same_text.
Qed.

Lemma has_and_not_has_witness :
  convert_condition
    ("trace.has(" +:+ "payment.charge" +:+ ")" +:+ " " +:+ "and" +:+
     (nl +:+ "  ") +:+ "not" +:+ " " +:+ "trace.has(" +:+ "fraud.check" +:+
     ")")
  = Ok
      ("when { " +:+ "payment.charge" +:+ " } never { " +:+
       "fraud.check" +:+ " }").
Proof.
  exact (has_and_not_has "payment.charge" "fraud.check" " " (nl +:+ "  ") " "
           eq_refl eq_refl eq_refl eq_refl eq_refl).
Defined.

(** X12: No recognizer knows [or]: [trace.has(A) or trace.has(B)] becomes [when { A }] under the TODO line, and the second operand is dropped. *)
Theorem has_or_has_drops_second (A B w1 w2 : string) :
  is_name A = true ->
  is_name B = true ->
  is_blank w1 = true ->
  is_blank w2 = true ->
  convert_condition
    ("trace.has(" +:+ A +:+ ")" +:+ w1 +:+ "or" +:+ w2 +:+ "trace.has(" +:+
     B +:+ ")")
  = Ok
      ("# TODO: Add always/never clause" +:+ nl +:+ "when { " +:+ A +:+ " }").
Proof.
  intros H0 H1 H2 H3.
  unfold convert_condition. strip_same.
  skip_pattern pattern1. skip_pattern pattern2. skip_pattern pattern3.
  skip_pattern pattern4a. skip_pattern pattern4b. skip_pattern pattern5.
  skip_pattern pattern6. skip_pattern pattern7. skip_pattern pattern8.
  unfold re_match at 1, pattern9. repeat mstep.
  unfold accept, emit9.
  read_group 1.
  cut_out ("trace.has(")
      (A)
      (")" +:+ w1 +:+ "or" +:+ w2 +:+ "trace.has(" +:+ B +:+ ")").
  same_text.
Qed.

Lemma has_or_has_drops_second_witness :
  convert_condition
    ("trace.has(" +:+ "payment.charge" +:+ ")" +:+ " " +:+ "or" +:+
     (nl +:+ "  ") +:+ "trace.has(" +:+ "fraud.check" +:+ ")")
  = Ok
      ("# TODO: Add always/never clause" +:+ nl +:+ "when { " +:+
       "payment.charge" +:+ " }").
Proof.
  exact (has_or_has_drops_second "payment.charge" "fraud.check" " " (nl +:+ "  ")
           eq_refl eq_refl eq_refl eq_refl).
Defined.

(** X8: [trace.count(X) OP trace.count(Y)], with any or no whitespace around
    the operator, becomes [when { count(X) OP count(Y) }] under the TODO
    line that asks for an always/never clause. *)
Theorem count_versus_count (X Y o g1 g2 : string) :
  is_name X = true ->
  is_name Y = true ->
  is_op o = true ->
  all_in CSpace g1 = true ->
  all_in CSpace g2 = true ->
  convert_condition
    ("trace.count(" +:+ X +:+ ")" +:+ g1 +:+ o +:+ g2
     +:+ "trace.count(" +:+ Y +:+ ")")
  = Ok ("# TODO: Add always/never clause" +:+ nl
        +:+ "when { count(" +:+ X +:+ ") " +:+ o
        +:+ " count(" +:+ Y +:+ ") }").
Proof.
  intros HX HY Ho Hg1 Hg2. destruct (is_op_parts _ Ho) as [Hon Hoa].
  unfold convert_condition. strip_same.
  skip_pattern pattern1. skip_pattern pattern2. skip_pattern pattern3.
  skip_pattern pattern4a. skip_pattern pattern4b. skip_pattern pattern5.
  unfold re_match at 1, pattern6. do 2 mstep.
  rewrite (m_seq (Star _)), m_star_app;
    [|apply kguarded_group_plus; exact space_not_op|exact Hg1
     |apply (stops_head CSpace (CSet "!<>=")); [exact op_not_space|assumption..]].
  rewrite (m_seq (Group _ _)), m_group_plus_app;
    [|apply kguarded_star;
      [exact op_not_space
      |apply (kguarded_first_lit _ _ "t"%char); reflexivity]
     |assumption|assumption
     |apply (stops_run _ CSpace); [exact space_not_op|exact Hg2|reflexivity]].
  rewrite (m_seq (Star _)), m_star_app;
    [|apply (kguarded_first_lit _ _ "t"%char); reflexivity|exact Hg2|reflexivity].
  repeat mstep. unfold accept, emit6.
  read_group 1. read_group 2. read_group 3.
  cut_out "trace.count(" X
      (")" +:+ g1 +:+ o +:+ g2 +:+ "trace.count(" +:+ Y +:+ ")").
  cut_out ("trace.count(" +:+ X +:+ ")" +:+ g1) o
      (g2 +:+ "trace.count(" +:+ Y +:+ ")").
  cut_out ("trace.count(" +:+ X +:+ ")" +:+ g1 +:+ o +:+ g2 +:+ "trace.count(") Y ")".
  same_text.
Qed.

Lemma count_versus_count_witness :
  convert_condition ("trace.count(" +:+ "http.retry" +:+ ")" +:+ " "
                     +:+ "!=" +:+ "" +:+ "trace.count(" +:+ "http.call" +:+ ")")
  = Ok ("# TODO: Add always/never clause" +:+ nl
        +:+ "when { count(" +:+ "http.retry" +:+ ") " +:+ "!="
        +:+ " count(" +:+ "http.call" +:+ ") }").
Proof.
  exact (count_versus_count "http.retry" "http.call" "!=" " " ""
           eq_refl eq_refl eq_refl eq_refl eq_refl).
Defined.

(** X9: [trace.count(X) OP N], with any or no whitespace around the operator,
    becomes [when { count(X) OP N }] under the TODO line that suggests
    [always { alert }]. *)
Theorem count_versus_number (X o n g1 g2 : string) :
  is_name X = true ->
  is_op o = true ->
  is_digits n = true ->
  all_in CSpace g1 = true ->
  all_in CSpace g2 = true ->
  convert_condition ("trace.count(" +:+ X +:+ ")" +:+ g1 +:+ o +:+ g2 +:+ n)
  = Ok ("# TODO: Add always/never clause (e.g., always { alert })" +:+ nl
        +:+ "when { count(" +:+ X +:+ ") " +:+ o +:+ " " +:+ n +:+ " }").
Proof.
  intros HX Ho Hn Hg1 Hg2. destruct (is_op_parts _ Ho) as [Hon Hoa].
  destruct (is_digits_parts _ Hn) as [Hnn Hna].
  unfold convert_condition.
  assert (strip ("trace.count(" +:+ X +:+ ")" +:+ g1 +:+ o +:+ g2 +:+ n)
          = "trace.count(" +:+ X +:+ ")" +:+ g1 +:+ o +:+ g2 +:+ n) as ->.
  { rewrite <- !app_assoc. apply (strip_wrap_digits _ "t"%char);
      (reflexivity || assumption). }
  skip_pattern pattern1. skip_pattern pattern2. skip_pattern pattern3.
  skip_pattern pattern4a. skip_pattern pattern4b. skip_pattern pattern5.
  assert (stops (CSet "!<>=") (g2 +:+ n) = true) as Hs1.
  { rewrite <- (app_nil_r n). apply (stops_run _ CSpace);
      [exact space_not_op|exact Hg2|].
    apply (stops_head _ CDigit); [exact digit_not_op|assumption..]. }
  assert (stops (CSet "><=!") (g2 +:+ n) = true) as Hs2.
  { rewrite <- (app_nil_r n). apply (stops_run _ CSpace);
      [exact space_not_op'|exact Hg2|].
    apply (stops_head _ CDigit); [exact digit_not_op'|assumption..]. }
  assert (stops CSpace n = true) as Hs3.
  { rewrite <- (app_nil_r n).
    apply (stops_head _ CDigit); [exact digit_not_space|assumption..]. }
  assert (stops CSpace (o +:+ g2 +:+ n) = true) as Hs4.
  { apply (stops_head CSpace (CSet "!<>=")); [exact op_not_space|assumption..]. }
  assert (re_match pattern6
            ("trace.count(" +:+ X +:+ ")" +:+ g1 +:+ o +:+ g2 +:+ n) = None) as ->.
  { unfold re_match, pattern6. do 2 mstep.
    rewrite (m_seq (Star _)), m_star_app;
      [|apply kguarded_group_plus; exact space_not_op|exact Hg1|exact Hs4].
    rewrite (m_seq (Group _ _)), m_group_plus_app;
      [|apply kguarded_star;
        [exact op_not_space
        |apply (kguarded_first_lit _ _ "t"%char); reflexivity]
       |assumption|assumption|exact Hs1].
    rewrite (m_seq (Star _)), m_star_app;
      [|apply (kguarded_first_lit _ _ "t"%char); reflexivity|exact Hg2|exact Hs3].
    rewrite m_count, scan_call_none; [reflexivity|].
    rewrite <- (app_nil_r n). now apply lit_digits_none. }
  unfold re_match at 1, pattern7. do 2 mstep.
  rewrite (m_seq (Star _)), m_star_app;
    [|apply kguarded_group_plus; exact space_not_op'|exact Hg1|exact Hs4].
  rewrite (m_seq (Group _ _)), m_group_plus_app;
    [|apply kguarded_star;
      [exact op_not_space'
      |apply kguarded_group_plus_end; exact op_not_digit']
     |assumption|now rewrite all_in_op_same|exact Hs2].
  rewrite (m_seq (Star _)), m_star_app;
    [|apply kguarded_group_plus_end; exact space_not_digit|exact Hg2|exact Hs3].
  rewrite m_group_plus_last by assumption.
  unfold accept, emit7.
  read_group 1. read_group 2. read_group 3.
  cut_out "trace.count(" X (")" +:+ g1 +:+ o +:+ g2 +:+ n).
  cut_out ("trace.count(" +:+ X +:+ ")" +:+ g1) o (g2 +:+ n).
  rewrite (slice_mid _ ("trace.count(" +:+ X +:+ ")" +:+ g1 +:+ o +:+ g2) n "")
    by (rewrite ?app_assoc, ?length_app, ?app_nil_r; cbn [String.length];
        (reflexivity || lia)).
  same_text.
Qed.

Lemma count_versus_number_witness :
  convert_condition ("trace.count(" +:+ "db.query" +:+ ")" +:+ ""
                     +:+ ">=" +:+ "  " +:+ "100")
  = Ok ("# TODO: Add always/never clause (e.g., always { alert })" +:+ nl
        +:+ "when { count(" +:+ "db.query" +:+ ") " +:+ ">=" +:+ " "
        +:+ "100" +:+ " }").
Proof.
  exact (count_versus_number "db.query" ">=" "100" "" "  "
           eq_refl eq_refl eq_refl eq_refl eq_refl).
Defined.

(** X13: An empty span name is never accepted: [trace.has()] and
    [trace.count()], whatever follows, go to manual review. *)
Theorem empty_span_name_not_recognized (rest : string) :
  convert_condition ("trace.has()" +:+ rest)
  = Ok (manual_review (strip ("trace.has()" +:+ rest)))
  /\ convert_condition ("trace.count()" +:+ rest)
     = Ok (manual_review (strip ("trace.count()" +:+ rest))).
Proof.
  split; apply convert_none; intros i.
  - assert (strip ("trace.has()" +:+ rest)
            = "trace.has(" +:+ ")" +:+ rstrip rest) as ->.
    { change ("trace.has()" +:+ rest)
        with (String "t" ("race.has(" +:+ String ")" rest)).
      now rewrite strip_nonspace, rstrip_app_nonspace. }
    unfold match_at, re_match.
    do 10 (destruct i as [|i];
      [cbn [cascade lookup list_lookup];
       unfold pattern1, pattern2, pattern3, pattern4a, pattern4b, pattern5,
         pattern6, pattern7, pattern8, pattern9;
       rewrite ?m_seq; first [rewrite m_has|rewrite m_count];
       first [rewrite scan_call_empty
             |rewrite scan_call_none by reflexivity]; reflexivity|]).
    reflexivity.
  - assert (strip ("trace.count()" +:+ rest)
            = "trace.count(" +:+ ")" +:+ rstrip rest) as ->.
    { change ("trace.count()" +:+ rest)
        with (String "t" ("race.count(" +:+ String ")" rest)).
      now rewrite strip_nonspace, rstrip_app_nonspace. }
    unfold match_at, re_match.
    do 10 (destruct i as [|i];
      [cbn [cascade lookup list_lookup];
       unfold pattern1, pattern2, pattern3, pattern4a, pattern4b, pattern5,
         pattern6, pattern7, pattern8, pattern9;
       rewrite ?m_seq; first [rewrite m_has|rewrite m_count];
       first [rewrite scan_call_empty
             |rewrite scan_call_none by reflexivity]; reflexivity|]).
    reflexivity.
Qed.

(** X15: Whitespace before and after the legacy text does not change the
    result. *)
Theorem surrounding_whitespace_ignored (s g1 g2 : string) :
  all_in CSpace g1 = true ->
  all_in CSpace g2 = true ->
  convert_condition (g1 +:+ s +:+ g2) = convert_condition s.
Proof.
  intros H1 H2. unfold convert_condition. now rewrite strip_gaps.
Qed.

Lemma surrounding_whitespace_ignored_witness :
  convert_condition ("  " +:+ nl +:+ "trace.has(A)" +:+ nl)
  = convert_condition "trace.has(A)".
Proof.
  exact (surrounding_whitespace_ignored "trace.has(A)" ("  " +:+ nl) nl
           eq_refl eq_refl).
Defined.

(** X14: Text that, once stripped, opens with neither [trace.has(] nor
    [trace.count(] is never recognized: the result is the manual-review
    marker followed by the stripped text. *)
Theorem foreign_text_needs_manual_review (s : string) :
  startswith "trace.has(" (strip s) = false ->
  startswith "trace.count(" (strip s) = false ->
  convert_condition s = Ok (manual_review (strip s)).
Proof.
  unfold startswith. intros Hh Hc.
  assert (lit "trace.has(" (strip s) = None) as Hh'
    by (destruct (lit "trace.has(" (strip s)); [discriminate|reflexivity]).
  assert (lit "trace.count(" (strip s) = None) as Hc'
    by (destruct (lit "trace.count(" (strip s)); [discriminate|reflexivity]).
  apply convert_none. intros i. unfold match_at, re_match.
  do 10 (destruct i as [|i];
    [cbn [cascade lookup list_lookup];
     unfold pattern1, pattern2, pattern3, pattern4a, pattern4b, pattern5,
       pattern6, pattern7, pattern8, pattern9;
     rewrite ?m_seq; first [rewrite m_has|rewrite m_count];
     rewrite scan_call_none by assumption; reflexivity|]).
  reflexivity.
Qed.

Lemma foreign_text_needs_manual_review_witness :
  convert_condition " trace.exists(A) "
  = Ok ("# TODO: Manual conversion required" +:+ nl
        +:+ "# Original: trace.exists(A)").
Proof.
  exact (foreign_text_needs_manual_review " trace.exists(A) " eq_refl eq_refl).
Defined.

(** X16: [converted_count] is the number of entries of the rule list that are
    records with a [condition] key, a record listed twice counting twice. *)
Theorem converted_count_exact (h h' : gmap loc object) (data : val)
    (rules : list val) (c n : nat) :
  get_rules h data = Ok rules ->
  convert_yaml_file h data = Ok (h', (c, n)) ->
  c = length (List.filter (with_condition h) rules).
Proof.
  intros Hr H.
  apply convert_yaml_file_inv in H as (rules' & st & Hr' & Hloop & _ & -> & _).
  rewrite Hr in Hr'. injection Hr' as <-.
  apply loop_count in Hloop as [Hc _]. exact Hc.
Qed.

Lemma converted_count_exact_witness :
  exists h' n,
    convert_yaml_file shared_doc (VRef 0%nat) = Ok (h', (3%nat, n))
    /\ 3%nat = length (List.filter (with_condition shared_doc)
                        [VRef 4%nat; VRef 2%nat; VRef 3%nat; VRef 2%nat]).
Proof.
  eexists _, _. split; [vm_compute; reflexivity|].
  eapply (converted_count_exact shared_doc _ (VRef 0%nat)); [reflexivity|].
  vm_compute. reflexivity.
Defined.

(** X17: The needs-review counter is at most twice the converted counter, which
    is at most the length of the rule list. *)
Theorem needs_review_at_most_twice (h h' : gmap loc object) (data : val)
    (c n : nat) :
  convert_yaml_file h data = Ok (h', (c, n)) ->
  exists rules,
    get_rules h data = Ok rules
    /\ (c <= length rules)%nat /\ (n <= 2 * c)%nat.
Proof.
  intros H.
  apply convert_yaml_file_inv in H as (rules & st & Hr & Hloop & _ & -> & ->).
  exists rules. split; [exact Hr|].
  apply loop_count in Hloop as [Hc Hn]. cbn in Hc, Hn. split; [|lia].
  rewrite Hc. apply List.filter_length_le.
Qed.

Lemma needs_review_at_most_twice_witness :
  exists h' c n rules,
    convert_yaml_file (single_rule "trace.has(A).where(k in [1])") (VRef 0%nat)
    = Ok (h', (c, n))
    /\ get_rules (single_rule "trace.has(A).where(k in [1])") (VRef 0%nat)
       = Ok rules
    /\ (c <= length rules)%nat /\ (n <= 2 * c)%nat.
Proof.
  destruct (convert_yaml_file (single_rule "trace.has(A).where(k in [1])")
              (VRef 0%nat)) as [[h' [c n]]|] eqn:E; [|vm_compute in E; discriminate].
  destruct (needs_review_at_most_twice _ _ _ _ _ E) as (rules & H).
  exists h', c, n, rules. split; [reflexivity|exact H].
Defined.

(** X18: After a run, every record of the rule list that has a condition holds
    a string that opens with [when {] or with [# TODO]. *)
Theorem stored_conditions_converted (h h' : gmap loc object) (data : val)
    (cn : nat * nat) :
  convert_yaml_file h data = Ok (h', cn) ->
  exists rules,
    get_rules h data = Ok rules /\ Forall (holds_converted h') rules.
Proof.
  destruct cn as [c n]. intros H.
  apply convert_yaml_file_inv in H as (rules & st & Hr & Hloop & -> & _).
  exists rules. split; [exact Hr|].
  apply loop_holds in Hloop as [_ H]. exact H.
Qed.

Lemma stored_conditions_converted_witness :
  exists h' cn rules,
    convert_yaml_file shared_doc (VRef 0%nat) = Ok (h', cn)
    /\ get_rules shared_doc (VRef 0%nat) = Ok rules
    /\ Forall (holds_converted h') rules.
Proof.
  destruct (convert_yaml_file shared_doc (VRef 0%nat)) as [[h' cn]|] eqn:E;
    [|vm_compute in E; discriminate].
  destruct (stored_conditions_converted _ _ _ _ E) as (rules & H).
  exists h', cn, rules. split; [reflexivity|exact H].
Defined.

(** X19: Run on its own result, the converter counts every rule it converts as
    needing review: nothing it wrote is recognized again. *)
Theorem second_run_flags_every_rule (h h1 h2 : gmap loc object) (data : val)
    (cn1 : nat * nat) (c2 n2 : nat) :
  convert_yaml_file h data = Ok (h1, cn1) ->
  convert_yaml_file h1 data = Ok (h2, (c2, n2)) ->
  (c2 <= n2)%nat.
Proof.
  destruct cn1 as [c1 n1]. intros H1 H2.
  apply convert_yaml_file_inv in H1 as (rules & st1 & Hr & Hloop1 & -> & _).
  apply convert_yaml_file_inv in H2 as (rules2 & st2 & Hr2 & Hloop2 & _ & -> & ->).
  pose proof (loop_frame _ _ _ Hloop1) as (Hf & _). cbn [heap] in Hf.
  rewrite (get_rules_frame _ _ _ _ Hf Hr) in Hr2. injection Hr2 as <-.
  apply loop_holds in Hloop1 as [_ Hall].
  apply (loop_rerun rules (mkState (heap st1) 0 0)) in Hloop2; [|exact Hall].
  cbn in Hloop2. lia.
Qed.

Lemma second_run_flags_every_rule_witness :
  exists h1 cn1 h2 c2 n2,
    convert_yaml_file shared_doc (VRef 0%nat) = Ok (h1, cn1)
    /\ convert_yaml_file h1 (VRef 0%nat) = Ok (h2, (c2, n2))
    /\ (c2 <= n2)%nat.
Proof.
  destruct (convert_yaml_file shared_doc (VRef 0%nat)) as [[h1 cn1]|] eqn:E1;
    [|vm_compute in E1; discriminate].
  destruct (convert_yaml_file h1 (VRef 0%nat)) as [[h2 [c2 n2]]|] eqn:E2.
  - exists h1, cn1, h2, c2, n2. split; [reflexivity|]. split; [exact E2|].
    exact (second_run_flags_every_rule _ _ _ _ _ _ _ E1 E2).
  - exfalso. vm_compute in E1. injection E1 as <- _.
    vm_compute in E2. discriminate.
Defined.

(** X20: A rule whose [condition] is not a string makes the whole run
    raise, after the rules before it went through: [TypeError] when the
    value is [bytes] (it has [.strip()], and [re.match] refuses it),
    [AttributeError] for every other value. *)
Theorem non_string_condition_raises (h : gmap loc object) (data : val)
    (pre post : list val) (l : loc) (items : list (string * val)) (v : val) :
  get_rules h data = Ok (pre ++ VRef l :: post)%list ->
  Forall (rule_ok h) pre ->
  h !! l = Some (ODict items) ->
  dict_get "condition" items = Some v ->
  (forall s, v <> VStr s) ->
  convert_yaml_file h data
  = Raise (match v with VBytes _ => TypeError | _ => AttributeError end).
Proof.
  intros Hr Hpre Hl Hc Hv. unfold convert_yaml_file. rewrite Hr. cbn [bind].
  rewrite loop_app.
  destruct (loop_ok pre (mkState h 0 0) Hpre) as [st1 Hst1]. rewrite Hst1.
  cbn [bind loop].
  assert (heap st1 !! l = Some (ODict items)) as Hl1.
  { destruct (loop_frame _ _ _ Hst1) as (_ & Hu & _). cbn [heap] in Hu.
    rewrite Hu; [exact Hl|]. intros Hin.
    rewrite Forall_forall in Hpre. apply Hpre in Hin.
    destruct Hin as (l' & items' & [= <-] & Hl' & Hstr).
    rewrite Hl in Hl'. injection Hl' as <-.
    destruct (Hstr v Hc) as [s ->]. now apply (Hv s). }
  unfold step, has_condition, get_condition. rewrite Hl1, Hc. cbn [bind].
  destruct v as [| | |s|b|]; try reflexivity. now destruct (Hv s).
Qed.

Lemma non_string_condition_raises_witness :
  convert_yaml_file broken_doc (VRef 0%nat) = Raise AttributeError
  /\ convert_yaml_file binary_doc (VRef 0%nat) = Raise TypeError.
Proof.
  split.
  - apply (non_string_condition_raises broken_doc (VRef 0%nat)
             [VRef 2%nat] [VRef 4%nat] 3%nat
             [("name", VStr "b"); ("condition", VNone)] VNone).
    + reflexivity.
    + repeat constructor. eexists 2%nat, _.
      split; [reflexivity|]. split; [reflexivity|]. intros c [= <-]. eauto.
    + reflexivity.
    + reflexivity.
    + discriminate.
  - apply (non_string_condition_raises binary_doc (VRef 0%nat)
             [VRef 2%nat] [] 3%nat
             [("name", VStr "b"); ("condition", VBytes "trace.has(B)")]
             (VBytes "trace.has(B)")).
    + reflexivity.
    + repeat constructor. eexists 2%nat, _.
      split; [reflexivity|]. split; [reflexivity|]. intros c [= <-]. eauto.
    + reflexivity.
    + reflexivity.
    + discriminate.
Defined.

(** X21: A record without a [condition] key is the same object after the run:
    the converter never adds the key. *)
Theorem record_without_condition_untouched (h h' : gmap loc object)
    (data : val) (cn : nat * nat) (l : loc) (items : list (string * val)) :
  convert_yaml_file h data = Ok (h', cn) ->
  h !! l = Some (ODict items) ->
  dict_get "condition" items = None ->
  h' !! l = Some (ODict items).
Proof.
  destruct cn as [c n]. intros H Hl Hc.
  apply convert_yaml_file_inv in H as (rules & st & _ & Hloop & -> & _).
  eapply loop_untouched; eauto.
Qed.

Lemma record_without_condition_untouched_witness :
  exists h' cn,
    convert_yaml_file shared_doc (VRef 0%nat) = Ok (h', cn)
    /\ h' !! 3%nat = Some (ODict [("name", VStr "b"); ("parent", VRef 2%nat)]).
Proof.
  destruct (convert_yaml_file shared_doc (VRef 0%nat)) as [[h' cn]|] eqn:E;
    [|vm_compute in E; discriminate].
  exists h', cn. split; [reflexivity|].
  apply (record_without_condition_untouched _ _ _ _ _ _ E); reflexivity.
Defined.

(* ===================================================================== *)
(** ** Properties of the blank-line clean-up *)
(* ===================================================================== *)

Import Clean CleanFacts.

(** X22: After the clean-up no three newlines follow one another. *)
Theorem collapse_leaves_no_triple (content : string) :
  contains (nl +:+ nl +:+ nl) (collapse_blank_lines content) = false.
Proof. exact (proj2 (collapse_bounded _ content (le_n _))). Qed.

(** X23: Text without three newlines in a row is left as it is. *)
Theorem collapse_fixes_clean_text (content : string) :
  contains (nl +:+ nl +:+ nl) content = false ->
  collapse_blank_lines content = content.
Proof. apply collapse_fixed. Qed.

Lemma collapse_fixes_clean_text_witness :
  collapse_blank_lines ("@Test" +:+ nl +:+ nl +:+ "void f() {}" +:+ nl)
  = "@Test" +:+ nl +:+ nl +:+ "void f() {}" +:+ nl.
Proof.
  exact (collapse_fixes_clean_text
           ("@Test" +:+ nl +:+ nl +:+ "void f() {}" +:+ nl) eq_refl).
Defined.

(** X24: Cleaning up twice is the same as cleaning up once. *)
Theorem collapse_idempotent (content : string) :
  collapse_blank_lines (collapse_blank_lines content)
  = collapse_blank_lines content.
Proof.
  apply collapse_fixed. exact (proj2 (collapse_bounded _ content (le_n _))).
Qed.

(** X25: The clean-up removes newlines only: every other character stays, in
    the same order. *)
Theorem collapse_keeps_other_characters (content : string) :
  without_newlines (collapse_blank_lines content) = without_newlines content.
Proof. exact (collapse_keeps _ content (le_n _)). Qed.
